(** * The ArtNet consumer of caspar-server

    A shallow embedding of [src/modules/artnet/consumer/artnet_consumer.cpp]:
    the fixture geometry ([compute_fixtures], [compute_senders]), the channel
    encoding and the universe buffer ([send_computed_sender]), the packet
    framing ([send_dmx_data]), the configuration reader
    ([get_fixtures_ptree], [get_senders_ptree],
    [create_preconfigured_consumer]) and the consumer object with its frame
    slot, its diagnostics and its sending thread.

    Conventions.
    - [int] is a 32-bit two's complement integer, carried as a [Z] and
      wrapped after each operation that can leave the range; [long long]
      likewise with 64 bits; [std::uint8_t] is a [Z] reduced modulo 256.
    - [double] is IEEE-754 binary64 with every operation rounded to nearest
      even on its own, which is what Rocq's primitive floats compute.
    - An exception is a value of [exception]; a function that can throw
      returns an [exceptional] result.  A store outside the universe buffer
      has no defined behaviour: the functions that store return an [option],
      [None] standing for it. *)

From Stdlib Require Import ZArith QArith Qround List Bool Ascii String Lia Floats Uint63.
From stdpp Require Import base option list strings pretty gmap.

#[local] Set Warnings "-inexact-float".
#[local] Open Scope Z_scope.

(** ** Machine integers *)

(** [int]: the value an [int] holds after an operation whose exact result
    is [z]. *)
Definition wrap_int (z : Z) : Z := (z + 2 ^ 31) mod 2 ^ 32 - 2 ^ 31.

(** [long long], as [wrap_int] with 64 bits. *)
Definition wrap_long_long (z : Z) : Z := (z + 2 ^ 63) mod 2 ^ 64 - 2 ^ 63.

(** Conversion to [std::uint8_t]. *)
Definition to_uint8 (z : Z) : Z := z mod 256.

Definition INT_MAX : Z := 2 ^ 31 - 1.
Definition INT_MIN : Z := - 2 ^ 31.

Definition is_int (z : Z) : Prop := INT_MIN <= z <= INT_MAX.
Definition is_uint8 (z : Z) : Prop := 0 <= z < 256.

(** ** Exceptions *)

Inductive exception : Type :=
  | user_error (msg_info : string)
  | ptree_exception (element expected : string)
  | system_error (what : string)
  | io_error (msg_info : string).

Inductive exceptional (A : Type) : Type :=
  | Returns (a : A)
  | Throws (e : exception).
Arguments Returns {A} a.
Arguments Throws {A} e.

Definition bind_exceptional {A B} (m : exceptional A) (k : A -> exceptional B)
  : exceptional B :=
  match m with
  | Returns a => k a
  | Throws e => Throws e
  end.

Notation "'try!' x <- m ; k" := (bind_exceptional m (fun x => k))
  (at level 10, x name, m at level 100, k at level 200).

Definition throws {A} (m : exceptional A) : Prop :=
  match m with Returns _ => False | Throws _ => True end.

(** A loop whose body can throw: [for (auto x : xs) body(x)], collecting what
    the body pushes back. *)
Fixpoint for_each {A B} (body : A -> exceptional B) (xs : list A)
  : exceptional (list B) :=
  match xs with
  | [] => Returns []
  | x :: rest =>
      try! y <- body x;
      try! ys <- for_each body rest;
      Returns (y :: ys)
  end.

(** ** Threads and futures *)

(** [std::thread thread_]. *)
Inductive thread_state : Type := not_started | running | finished | joined.

(** [std::future<bool>]. *)
Inductive future (A : Type) : Type :=
  | ready (value : A)
  | pending.
Arguments ready {A} value.
Arguments pending {A}.

Definition make_ready_future {A} (value : A) : future A := ready value.

(** ** The declarations of util/fixture_calculation.h *)

(** Modelled from the spec: the enumeration [FixtureType] is declared in
    util/fixture_calculation.h, which is not among the sources.  The reader
    uses an enumerator as a channel count ([fixtureChannels = f.type]); the
    values are the minimum channel counts the spec gives: 1, 3 and 4. *)
Inductive FixtureType : Type := DIMMER | RGB | RGBW.

Definition FixtureType_value (t : FixtureType) : Z :=
  match t with
  | DIMMER => 1
  | RGB => 3
  | RGBW => 4
  end.

(** Modelled from the spec: [color], declared in the same header; three
    unsigned 8-bit channels. *)
Record color : Type := Color { r : Z; g : Z; b : Z }.

Definition color_ok (c : color) : Prop :=
  is_uint8 (r c) /\ is_uint8 (g c) /\ is_uint8 (b c).

(** Modelled from the spec: [box], declared in the same header; five
    [float] members.  A binary32 value is carried in a binary64 float, which
    holds every one of them; the members are stored and handed on, never
    computed with. *)
Record box : Type := Box {
  x : float;
  y : float;
  width : float;
  height : float;
  rotation : float
}.

(** Modelled from the spec: [fixture], declared in the same header.  The
    integer members hold the [int] values the reader assigns to them. *)
Record fixture : Type := Fixture {
  type : FixtureType;
  startAddress : Z;
  fixtureCount : Z;
  fixtureChannels : Z;
  fixtureBox : box
}.

(** ** Channel encoding *)

(** The integer part of a finite non-negative double below [2^53].
    [frshiftexp] splits [d] into a significand in [[0.5, 1)] and an
    exponent biased by 2101; [normfr_mantissa] is that significand scaled by
    [2^53], an integer, so [d] is that integer times [2^(e - 2101 - 53)] and
    its integer part drops the low [53 - (e - 2101)] bits. *)
Definition double_trunc (d : float) : int :=
  let (m, e) := frshiftexp d in
  (normfr_mantissa m >> (53 + 2101 - e))%uint63.

(** [(uint8_t) d] for a [double] [d]. *)
Definition double_to_uint8 (d : float) : Z :=
  to_uint8 (Uint63.to_Z (double_trunc d)).

(** The conversion of a [std::uint8_t] operand to [double]. *)
Definition uint8_to_double (c : Z) : float :=
  PrimFloat.of_uint63 (Uint63.of_Z c).

(** [0.279 * color.r + 0.547 * color.g + 0.106 * color.b], in [double]. *)
Definition dimmer_level (c : color) : float :=
  (0.279 * uint8_to_double (r c) + 0.547 * uint8_to_double (g c)
   + 0.106 * uint8_to_double (b c))%float.

(** The values the [switch] of [send_computed_sender] stores to [ptr[0]],
    [ptr[1]], ... for a fixture of type [t] and the sampled colour [c]. *)
Definition encode (t : FixtureType) (c : color) : list Z :=
  match t with
  | DIMMER => [double_to_uint8 (dimmer_level c)]
  | RGB => [to_uint8 (r c); to_uint8 (g c); to_uint8 (b c)]
  | RGBW =>
      let w := to_uint8 (Z.min (Z.min (r c) (g c)) (b c)) in
      [to_uint8 (r c - w); to_uint8 (g c - w); to_uint8 (b c - w); w]
  end.

(** ** Senders and what the consumer takes from its surroundings *)

(** Modelled from the spec: [sender], declared in util/fixture_calculation.h:
    destination host and port, universe number and the fixtures. *)
Record sender : Type := Sender {
  host : string;
  port : Z;
  universe : Z;
  fixtures : list fixture
}.

(** The functions and types the consumer uses and does not define: the
    rectangle subdivision and the colour average of
    util/fixture_calculation.h, the frame type of core/frame, the address
    parser and the datagram socket of boost::asio, the element check of
    common/ptree.h, and the value of a value-initialised [sender]. *)
Class Surroundings : Type := {
  rect : Type;
  compute_rect : box -> Z -> Z -> rect;
  frame : Type;
  average_color : frame -> rect -> color;
  address : Type;
  (** [boost::asio::ip::address::from_string]; [None] when it throws. *)
  from_string : string -> option address;
  (** The error code the socket reports for its [n]-th [send_to] call,
      counted from 0; [None] for success, else the code's message. *)
  send_to_error : nat -> option string;
  (** [ptree_verify_element_name element expected]. *)
  ptree_verify_element_name : string -> string -> exceptional unit;
  (** [sender s{}]. *)
  sender_init : sender
}.

Section Consumer.
Context `{Surroundings}.

(** Modelled from the spec: [computed_fixture], declared in
    util/fixture_calculation.h: type, zero-based channel address and the
    rectangle to sample.  Projections share one name space, so the members
    [type] and [address] are [c_type] and [c_address] here, and the members
    [universe] and [fixtures] of [computed_sender] are [c_universe] and
    [c_fixtures]. *)
Record computed_fixture : Type := ComputedFixture {
  c_type : FixtureType;
  c_address : Z;
  rectangle : rect
}.

(** [udp::endpoint]: an address and a 16-bit port. *)
Record udp_endpoint : Type := Endpoint {
  endpoint_address : address;
  endpoint_port : Z
}.

(** Modelled from the spec: [computed_sender], declared in the same header:
    the resolved endpoint, the universe number and the fixtures of all the
    sender's fixture definitions, in one list. *)
Record computed_sender : Type := ComputedSender {
  endpoint : udp_endpoint;
  c_universe : Z;
  c_fixtures : list computed_fixture
}.

Record configuration : Type := Configuration {
  refreshRate : Z;
  senders : list sender
}.

(** ** Geometry *)

(** The inner loop of [compute_fixtures], from the value [i] of its counter
    on, with [todo] iterations left. *)
Fixpoint compute_fixtures_from (f : fixture) (todo : nat) (i : Z)
  : list computed_fixture :=
  match todo with
  | O => []
  | S todo' =>
      {| c_type := type f;
         c_address := wrap_int (startAddress f + wrap_int (i * fixtureChannels f));
         rectangle := compute_rect (fixtureBox f) i (fixtureCount f) |}
      :: compute_fixtures_from f todo' (i + 1)
  end.

(** The fixtures one [fixture] expands to: the counter runs from 0 while it
    is below [fixtureCount]. *)
Definition compute_fixture (f : fixture) : list computed_fixture :=
  compute_fixtures_from f (Z.to_nat (fixtureCount f)) 0.

(** [compute_fixtures].  The source's last line reads
    [return compute_fixtures;], the function's own name where the local
    [computed_fixtures] is meant; the local is what is returned here. *)
Definition compute_fixtures (s : sender) : list computed_fixture :=
  flat_map compute_fixture (fixtures s).

Definition to_uint16 (z : Z) : Z := z mod 65536.

(** The body of the loop of [compute_senders]. *)
Definition compute_sender (s : sender) : exceptional computed_sender :=
  match from_string (host s) with
  | None => Throws (system_error "Invalid argument")
  | Some a =>
      Returns {| endpoint := Endpoint a (to_uint16 (port s));
                 c_universe := universe s;
                 c_fixtures := compute_fixtures s |}
  end.

(** ** The universe buffer *)

(** [ptr[k] = v] for each [v] of [vs] in turn, [k] counting from 0, where
    [ptr] is [dmx_data + at]; [None] when a store falls outside the buffer. *)
Fixpoint store_bytes (dmx_data : list Z) (at_ : Z) (vs : list Z)
  : option (list Z) :=
  match vs with
  | [] => Some dmx_data
  | v :: rest =>
      if decide (0 <= at_ < Z.of_nat (length dmx_data))
      then store_bytes (<[Z.to_nat at_ := v]> dmx_data) (at_ + 1) rest
      else None
  end.

(** The body of the loop over [sender.fixtures] in [send_computed_sender]. *)
Definition write_fixture (fr : frame) (dmx_data : list Z) (cf : computed_fixture)
  : option (list Z) :=
  let color := average_color fr (rectangle cf) in
  store_bytes dmx_data (c_address cf) (encode (c_type cf) color).

Fixpoint write_fixtures (fr : frame) (dmx_data : list Z)
  (cfs : list computed_fixture) : option (list Z) :=
  match cfs with
  | [] => Some dmx_data
  | cf :: rest =>
      match write_fixture fr dmx_data cf with
      | Some dmx_data' => write_fixtures fr dmx_data' rest
      | None => None
      end
  end.

(** [dmx_data] as [send_computed_sender] hands it to [send_dmx_data]: 512
    zero bytes ([memset]), then the fixtures' stores. *)
Definition fill_dmx_data (s : computed_sender) (fr : frame) : option (list Z) :=
  write_fixtures fr (replicate 512 0) (c_fixtures s).

(** ** Packet framing *)

(** [header] of [send_dmx_data]. *)
Definition dmx_header (universe_ length_ : Z) : list Z :=
  let hUni := to_uint8 (Z.land (Z.shiftr universe_ 8) 255) in
  let lUni := to_uint8 (Z.land universe_ 255) in
  let hLen := to_uint8 (Z.land (Z.shiftr length_ 8) 255) in
  let lLen := to_uint8 (Z.land length_ 255) in
  [65; 114; 116; 45; 78; 101; 116; 0; 0; 80; 0; 14; 0; 0; lUni; hUni; hLen; lLen].

(** [buffer[i]] as the loop of [send_dmx_data] sets it.  [send_dmx_data] is
    only called with a 512-byte array and [length = 512], so [data[i - 18]]
    is always inside the array. *)
Definition dmx_buffer_byte (header data : list Z) (length_ : Z) (i : Z) : Z :=
  if i <? 18 then nth (Z.to_nat i) header 0
  else if i - 18 <? length_ then nth (Z.to_nat (i - 18)) data 0
  else 0.

(** [buffer] of [send_dmx_data], all [18 + 512] bytes of it. *)
Definition dmx_buffer (universe_ : Z) (data : list Z) (length_ : Z) : list Z :=
  dmx_buffer_byte (dmx_header universe_ length_) data length_
    <$> seqZ 0 (18 + 512).

(** ** The consumer object *)

Record datagram : Type := Datagram {
  destination : udp_endpoint;
  payload : list Z
}.

(** The members of [artnet_consumer] that the functions below read or write,
    and three records of what its thread has done: the datagrams handed to
    [socket.send_to], oldest first, whether the call succeeded or not; the
    durations slept; the exceptions logged.  [last_frame_] is [None] for an
    empty [const_frame], the one for which [!frame] holds. *)
Record artnet_consumer : Type := ArtnetConsumer {
  config : configuration;
  computed_senders : list computed_sender;
  last_frame_ : option frame;
  abort_request_ : bool;
  thread_ : thread_state;
  socket : list datagram;
  slept : list Z;
  logged : list exception
}.

Definition set_computed_senders (css : list computed_sender) (c : artnet_consumer) :=
  ArtnetConsumer (config c) css (last_frame_ c) (abort_request_ c)
    (thread_ c) (socket c) (slept c) (logged c).

Definition set_last_frame_ (fr : option frame) (c : artnet_consumer) :=
  ArtnetConsumer (config c) (computed_senders c) fr (abort_request_ c)
    (thread_ c) (socket c) (slept c) (logged c).

Definition set_abort_request_ (v : bool) (c : artnet_consumer) :=
  ArtnetConsumer (config c) (computed_senders c) (last_frame_ c) v
    (thread_ c) (socket c) (slept c) (logged c).

Definition set_thread_ (t : thread_state) (c : artnet_consumer) :=
  ArtnetConsumer (config c) (computed_senders c) (last_frame_ c)
    (abort_request_ c) t (socket c) (slept c) (logged c).

Definition push_socket (d : datagram) (c : artnet_consumer) :=
  ArtnetConsumer (config c) (computed_senders c) (last_frame_ c)
    (abort_request_ c) (thread_ c) (socket c ++ [d]) (slept c) (logged c).

Definition append_socket (ds : list datagram) (c : artnet_consumer) :=
  ArtnetConsumer (config c) (computed_senders c) (last_frame_ c)
    (abort_request_ c) (thread_ c) (socket c ++ ds) (slept c) (logged c).

Definition push_slept (ms : Z) (c : artnet_consumer) :=
  ArtnetConsumer (config c) (computed_senders c) (last_frame_ c)
    (abort_request_ c) (thread_ c) (socket c) (slept c ++ [ms]) (logged c).

Definition push_logged (e : exception) (c : artnet_consumer) :=
  ArtnetConsumer (config c) (computed_senders c) (last_frame_ c)
    (abort_request_ c) (thread_ c) (socket c) (slept c) (logged c ++ [e]).

(** [compute_senders]: the list is cleared and filled again; the address
    parser can throw. *)
Definition compute_senders (c : artnet_consumer) : exceptional artnet_consumer :=
  try! css <- for_each compute_sender (senders (config c));
  Returns (set_computed_senders css c).

(** The constructor.  The socket is taken to open. *)
Definition new_artnet_consumer (cfg : configuration) : exceptional artnet_consumer :=
  compute_senders
    {| config := cfg; computed_senders := []; last_frame_ := None;
       abort_request_ := false; thread_ := not_started;
       socket := []; slept := []; logged := [] |}.

(** [send]; the field argument is not used. *)
Definition send (fr : option frame) (c : artnet_consumer)
  : artnet_consumer * future bool :=
  (set_last_frame_ fr c, make_ready_future true).

(** [state]: [core::monitor::state] as a finite map from keys to integers. *)
Definition state (c : artnet_consumer) : gmap string Z :=
  <["artnet/refresh-rate"%string := refreshRate (config c)]>
    (<["artnet/senders"%string := Z.of_nat (length (senders (config c)))]>
       (<["artnet/computed-senders"%string := Z.of_nat (length (computed_senders c))]>
          ∅)).

Definition print : string := "artnet[]".
Definition name : string := "artnet".
Definition index : Z := 1337.

(** ** Sending *)

(** [send_dmx_data]: the buffer goes to the socket; a reported error is
    thrown as an [io_error] with the error's message. *)
Definition send_dmx_data (s : computed_sender) (data : list Z) (length_ : Z)
  (c : artnet_consumer) : artnet_consumer * exceptional unit :=
  let buffer := dmx_buffer (c_universe s) data length_ in
  let err := send_to_error (length (socket c)) in
  let c' := push_socket (Datagram (endpoint s) buffer) c in
  match err with
  | None => (c', Returns tt)
  | Some message => (c', Throws (io_error message))
  end.

(** [send_computed_sender]. *)
Definition send_computed_sender (s : computed_sender) (fr : frame)
  (c : artnet_consumer) : option (artnet_consumer * exceptional unit) :=
  match fill_dmx_data s fr with
  | Some dmx_data => Some (send_dmx_data s dmx_data 512 c)
  | None => None
  end.

(** The loop of [send_computed_senders], over the senders still to do: an
    exception leaves the loop. *)
Fixpoint send_each (fr : frame) (todo : list computed_sender)
  (c : artnet_consumer) : option (artnet_consumer * exceptional unit) :=
  match todo with
  | [] => Some (c, Returns tt)
  | s :: rest =>
      match send_computed_sender s fr c with
      | Some (c', Returns _) => send_each fr rest c'
      | Some (c', Throws e) => Some (c', Throws e)
      | None => None
      end
  end.

Definition send_computed_senders (fr : frame) (c : artnet_consumer)
  : option (artnet_consumer * exceptional unit) :=
  send_each fr (computed_senders c) c.

(** ** The sending thread *)

(** One turn of the [while] loop of the thread that [initialize] starts,
    entered with [abort_request_] clear.  [elapsed_ms] is the time since the
    previous turn in whole milliseconds, as the clock gives it.  [None]: the
    division by a zero refresh rate, or a store outside a universe buffer. *)
Definition thread_turn (elapsed_ms : Z) (c : artnet_consumer)
  : option artnet_consumer :=
  if decide (refreshRate (config c) = 0) then None else
  let time := Z.quot 1000 (refreshRate (config c)) in
  let sleep_time := wrap_long_long (time - elapsed_ms) in
  let c1 := if 0 <? sleep_time then push_slept sleep_time c else c in
  match last_frame_ c1 with
  | None => Some c1
  | Some fr =>
      match send_computed_senders fr c1 with
      | Some (c2, Returns _) => Some c2
      | Some (c2, Throws e) => Some (push_logged e c2)
      | None => None
      end
  end.

(** What happens to a consumer, one call or one turn of its thread at a
    time; [initialize] is called at most once.  The mutex makes [send] and the thread's read of [last_frame_]
    exclude each other, and the thread touches [last_frame_] nowhere else,
    so every run is one of these sequences. *)
Inductive event : Type :=
  | Initialize
  | Send (fr : option frame)
  | Turn (elapsed_ms : Z)
  | Destroy.

Definition joinable (t : thread_state) : bool :=
  match t with
  | running | finished => true
  | not_started | joined => false
  end.

Definition step (ev : event) (c : artnet_consumer) : option artnet_consumer :=
  match ev with
  | Initialize => Some (set_thread_ running c)
  | Send fr => Some (fst (send fr c))
  | Turn elapsed_ms =>
      match thread_ c with
      | running =>
          if abort_request_ c then Some (set_thread_ finished c)
          else thread_turn elapsed_ms c
      | _ => Some c
      end
  | Destroy =>
      let c' := set_abort_request_ true c in
      Some (if joinable (thread_ c') then set_thread_ joined c' else c')
  end.

Fixpoint run (evs : list event) (c : artnet_consumer) : option artnet_consumer :=
  match evs with
  | [] => Some c
  | ev :: rest =>
      match step ev c with
      | Some c' => run rest c'
      | None => None
      end
  end.

(** ** Reading the configuration *)

(** The property tree is modelled by what its [get] calls return.  A key
    holds [Some v] when the element has it and its text converts to the type
    asked for (an [int] within its range, a [float], a string);
    [get(key, fallback)] is then [v], and [fallback] otherwise.  Every element
    carries its name, which [ptree_verify_element_name] checks. *)
Record fixture_element : Type := FixtureElement {
  xml_fixture_name : string;
  xml_start_address : option Z;
  xml_fixture_count : option Z;
  xml_type : option string;
  xml_fixture_channels : option Z;
  xml_x : option float;
  xml_y : option float;
  xml_width : option float;
  xml_height : option float;
  xml_rotation : option float
}.

Record sender_element : Type := SenderElement {
  xml_sender_name : string;
  xml_universe : option Z;
  xml_host : option string;
  xml_port : option Z;
  xml_fixtures : list fixture_element
}.

Record config_tree : Type := ConfigTree {
  xml_refresh_rate : option Z;
  xml_senders : list sender_element
}.

Definition get {A} (key : option A) (fallback : A) : A := default fallback key.

Definition to_upper (a : ascii) : ascii :=
  let n := nat_of_ascii a in
  if ((97 <=? n) && (n <=? 122))%nat then ascii_of_nat (n - 32) else a.

Fixpoint upper (s : string) : string :=
  match s with
  | EmptyString => EmptyString
  | String a rest => String (to_upper a) (upper rest)
  end.

(** [boost::iequals]: equality up to the case of letters. *)
Definition iequals (s1 s2 : string) : bool := String.eqb (upper s1) (upper s2).

Definition parse_type (text : string) : exceptional FixtureType :=
  if iequals text "DIMMER" then Returns DIMMER
  else if iequals text "RGB" then Returns RGB
  else if iequals text "RGBW" then Returns RGBW
  else Throws (user_error "Unknown fixture type").

(** The body of the loop of [get_fixtures_ptree]. *)
Definition get_fixture (xml_fixture : fixture_element) : exceptional fixture :=
  try! _ <- ptree_verify_element_name (xml_fixture_name xml_fixture) "fixture";
  let startAddress_ := get (xml_start_address xml_fixture) 0 in
  if startAddress_ <? 1
  then Throws (user_error "Fixture start address must be specified") else
  let fixtureCount_ := get (xml_fixture_count xml_fixture) (-1) in
  if fixtureCount_ <? 1
  then Throws (user_error "Fixture count must be specified") else
  let type_ := get (xml_type xml_fixture) ""%string in
  if String.eqb type_ ""
  then Throws (user_error "Fixture type must be specified") else
  try! t <- parse_type type_;
  let fixtureChannels_ := get (xml_fixture_channels xml_fixture) (-1) in
  let fixtureChannels_ :=
    if fixtureChannels_ <? 0 then FixtureType_value t else fixtureChannels_ in
  if fixtureChannels_ <? FixtureType_value t
  then Throws (user_error
    "Fixture channel count must be at least enough channels for current color mode")
  else
  Returns {| type := t;
             startAddress := wrap_int (startAddress_ - 1);
             fixtureCount := fixtureCount_;
             fixtureChannels := fixtureChannels_;
             fixtureBox :=
               {| x := get (xml_x xml_fixture) 0%float;
                  y := get (xml_y xml_fixture) 0%float;
                  width := get (xml_width xml_fixture) 0%float;
                  height := get (xml_height xml_fixture) 0%float;
                  rotation := get (xml_rotation xml_fixture) 0%float |} |}.

Definition get_fixtures_ptree (xml_sender : sender_element)
  : exceptional (list fixture) :=
  for_each get_fixture (xml_fixtures xml_sender).

(** The body of the loop of [get_senders_ptree]. *)
Definition get_sender (xml_sender : sender_element) : exceptional sender :=
  try! _ <- ptree_verify_element_name (xml_sender_name xml_sender) "sender";
  let s := sender_init in
  let universe_ := get (xml_universe xml_sender) (universe s) in
  let host_ := get (xml_host xml_sender) (host s) in
  let port_ := get (xml_port xml_sender) (port s) in
  try! fixtures_ <- get_fixtures_ptree xml_sender;
  Returns {| host := host_; port := port_; universe := universe_;
             fixtures := fixtures_ |}.

Definition get_senders_ptree (ptree : config_tree) : exceptional (list sender) :=
  for_each get_sender (xml_senders ptree).

(** [create_preconfigured_consumer]; the format repository and the channels
    are not used. *)
Definition create_preconfigured_consumer (ptree : config_tree)
  : exceptional artnet_consumer :=
  let refreshRate_ := get (xml_refresh_rate ptree) 10 in
  if refreshRate_ <? 1
  then Throws (user_error "Refresh rate must be at least 1") else
  try! senders_ <- get_senders_ptree ptree;
  new_artnet_consumer {| refreshRate := refreshRate_; senders := senders_ |}.

(** ** What the specification says, in its own words *)

(** The packet of the specification's layout table for universe [u] and the
    universe buffer [data]. *)
Definition spec_protocol_id : list Z :=
  ((fun a => Z.of_nat (nat_of_ascii a)) <$> list_ascii_of_string "Art-Net") ++ [0].

Definition spec_packet (u : Z) (data : list Z) : list Z :=
  spec_protocol_id
  ++ [0; 80]                                  (* OpCode 0x5000, low byte first *)
  ++ [0; 14]                                  (* version 14, high byte first *)
  ++ [0]                                      (* sequence *)
  ++ [0]                                      (* physical *)
  ++ [Z.land u 255; Z.land (Z.shiftr u 8) 255] (* universe, low byte first *)
  ++ [2; 0]                                   (* length 512, high byte first *)
  ++ data.

(** The fixtures the specification derives from a fixture definition with
    configured start address [s], [n] instances and stride [c]. *)
Definition spec_fixtures (t : FixtureType) (s n c : Z) (bx : box)
  : list computed_fixture :=
  (fun i => {| c_type := t;
               c_address := (s - 1) + i * c;
               rectangle := compute_rect bx i n |})
    <$> seqZ 0 n.

(** The fixture's channels lie inside the universe. *)
Definition fixture_fits (cf : computed_fixture) : Prop :=
  0 <= c_address cf /\ c_address cf + FixtureType_value (c_type cf) <= 512.

Definition sender_fits (s : computed_sender) : Prop :=
  Forall fixture_fits (c_fixtures s).

(** Channel slot [k] is one the fixture stores to. *)
Definition writes_slot (cf : computed_fixture) (k : Z) : Prop :=
  c_address cf <= k < c_address cf + FixtureType_value (c_type cf).

(** The datagram [send_computed_sender] hands to the socket for [s]. *)
Definition datagram_for (fr : frame) (s : computed_sender) : datagram :=
  Datagram (endpoint s)
           (dmx_buffer (c_universe s) (default [] (fill_dmx_data s fr)) 512).

(** The datagrams the socket was given between the states [c] and [c']. *)
Definition sent_since (c c' : artnet_consumer) : list datagram :=
  drop (length (socket c)) (socket c').

(** The addresses those datagrams went to, and the addresses of the
    consumer's senders. *)
Definition addresses_sent_to (c c' : artnet_consumer) : list address :=
  (fun d => endpoint_address (destination d)) <$> sent_since c c'.

Definition sender_addresses (c : artnet_consumer) : list address :=
  (fun s => endpoint_address (endpoint s)) <$> computed_senders c.

(** How many computed fixtures the consumer holds, over all its senders. *)
Definition computed_fixture_count (c : artnet_consumer) : Z :=
  Z.of_nat (length (flat_map c_fixtures (computed_senders c))).

(** The deliveries of [frames], in order. *)
Definition deliver_all (frames : list (option frame)) (c : artnet_consumer)
  : artnet_consumer :=
  foldl (fun c' fr => fst (send fr c')) c frames.

Definition returns {A} (m : exceptional A) : bool :=
  match m with Returns _ => true | Throws _ => false end.

(** The reader turns the fixture element down. *)
Definition fixture_rejected (e : fixture_element) : bool :=
  negb (returns (ptree_verify_element_name (xml_fixture_name e) "fixture"))
  || (get (xml_start_address e) 0 <? 1)
  || (get (xml_fixture_count e) (-1) <? 1)
  || String.eqb (get (xml_type e) ""%string) ""
  || match parse_type (get (xml_type e) ""%string) with
     | Throws _ => true
     | Returns t =>
         match xml_fixture_channels e with
         | Some k => (0 <=? k) && (k <? FixtureType_value t)
         | None => false
         end
     end.

Definition sender_rejected (e : sender_element) : bool :=
  negb (returns (ptree_verify_element_name (xml_sender_name e) "sender"))
  || existsb fixture_rejected (xml_fixtures e).

Definition host_of (e : sender_element) : string :=
  get (xml_host e) (host sender_init).

Definition host_unparsable (e : sender_element) : bool :=
  match from_string (host_of e) with Some _ => false | None => true end.

(** The configurations [create_preconfigured_consumer] turns down. *)
Definition rejected (ptree : config_tree) : bool :=
  (get (xml_refresh_rate ptree) 10 <? 1)
  || existsb sender_rejected (xml_senders ptree)
  || existsb host_unparsable (xml_senders ptree).

(** The invalid configurations as the specification lists them: as
    [fixture_rejected], but any configured channel count below the type's
    minimum counts, negative ones too, and element names are not looked at. *)
Definition spec_fixture_invalid (e : fixture_element) : bool :=
  (get (xml_start_address e) 0 <? 1)
  || (get (xml_fixture_count e) (-1) <? 1)
  || String.eqb (get (xml_type e) ""%string) ""
  || match parse_type (get (xml_type e) ""%string) with
     | Throws _ => true
     | Returns t =>
         match xml_fixture_channels e with
         | Some k => k <? FixtureType_value t
         | None => false
         end
     end.

Definition spec_invalid (ptree : config_tree) : bool :=
  (get (xml_refresh_rate ptree) 10 <? 1)
  || existsb (fun e => existsb spec_fixture_invalid (xml_fixtures e))
             (xml_senders ptree)
  || existsb host_unparsable (xml_senders ptree).

End Consumer.

(** [floor(0.279 r + 0.547 g + 0.106 b)] over the rationals. *)
Definition spec_dimmer (c : color) : Z :=
  Qfloor ((279 # 1000) * inject_Z (r c) + (547 # 1000) * inject_Z (g c)
          + (106 # 1000) * inject_Z (b c))%Q.

(** The three colours at which the double falls just below an integer that
    the exact sum reaches. *)
Definition dimmer_short (c : color) : bool :=
  ((r c =? 19) && (g c =? 251) && (b c =? 117))
  || ((r c =? 119) && (g c =? 135) && (b c =? 9))
  || ((r c =? 183) && (g c =? 251) && (b c =? 91)).

(** The integer part of a non-negative double, read off its decoding as
    sign, mantissa and exponent ([Prim2SF]); [double_trunc] is compared with
    it below. *)
Definition double_trunc_SF (d : float) : Z :=
  match Prim2SF d with
  | S754_finite false m e => Z.shiftl (Z.pos m) e
  | _ => 0
  end.

(** ** A table of the dimmer level over all colours *)

Definition dimmer_level63 (r g b : int) : float :=
  (0.279 * PrimFloat.of_uint63 r + 0.547 * PrimFloat.of_uint63 g
   + 0.106 * PrimFloat.of_uint63 b)%float.

Definition dimmer_exact63 (r g b : int) : int :=
  ((279 * r + 547 * g + 106 * b) / 1000)%uint63.

Definition dimmer_short63 (r g b : int) : bool :=
  (((r =? 19) && (g =? 251) && (b =? 117))
   || ((r =? 119) && (g =? 135) && (b =? 9))
   || ((r =? 183) && (g =? 251) && (b =? 91)))%uint63.

(** At [(r, g, b)]: the truncated level is the exact floor, one less at the
    three short colours, and it is the integer part of the level: it is at
    most the level, which is below its successor. *)
Definition dimmer_entry_ok (r g b : int) : bool :=
  let d := dimmer_level63 r g b in
  let t := double_trunc d in
  ((t =? (if dimmer_short63 r g b then dimmer_exact63 r g b - 1
          else dimmer_exact63 r g b))%uint63
   && (PrimFloat.of_uint63 t <=? d)%float
   && (d <? PrimFloat.of_uint63 (t + 1)%uint63)%float).

Definition all_uint8 : list int :=
  map (fun n => Uint63.of_Z (Z.of_nat n)) (seq 0 256).

(** What construction can throw: one of the reader's five messages, the
    address parser's error, or what the element check threw. *)
Definition reader_messages : list string :=
  ["Refresh rate must be at least 1"; "Fixture start address must be specified";
   "Fixture count must be specified"; "Fixture type must be specified";
   "Unknown fixture type";
   "Fixture channel count must be at least enough channels for current color mode"
  ]%string.

(** ** A bench to run the consumer on

    One-colour frames, rectangles that record how they were asked for, host
    names that parse unless empty, and a socket whose errors are given. *)
Definition bench (errors : nat -> option string) : Surroundings := {|
  rect := box * Z * Z;
  compute_rect := fun bx i n => (bx, i, n);
  frame := color;
  average_color := fun fr _ => fr;
  address := string;
  from_string := fun h => if String.eqb h "" then None else Some h;
  send_to_error := errors;
  ptree_verify_element_name := fun element expected =>
    if String.eqb element expected then Returns tt
    else Throws (ptree_exception element expected);
  sender_init := {| host := "127.0.0.1"; port := 6454; universe := 0; fixtures := [] |}
|}.

Definition no_errors : nat -> option string := fun _ => None.

Definition first_send_fails : nat -> option string :=
  fun n => match n with O => Some "Network is unreachable"%string | _ => None end.

Definition bench_fixture (s n : Z) (t : string) (channels : option Z)
  : fixture_element :=
  {| xml_fixture_name := "fixture"; xml_start_address := Some s;
     xml_fixture_count := Some n; xml_type := Some t;
     xml_fixture_channels := channels;
     xml_x := None; xml_y := None; xml_width := None; xml_height := None;
     xml_rotation := None |}.

Definition bench_sender (h : string) (u : Z) (fs : list fixture_element)
  : sender_element :=
  {| xml_sender_name := "sender"; xml_universe := Some u; xml_host := Some h;
     xml_port := Some 6454; xml_fixtures := fs |}.

Definition red : color := Color 255 0 0.

(** One sender with one RGB fixture at start address 1. *)
Definition one_rgb_tree : config_tree :=
  {| xml_refresh_rate := Some 10;
     xml_senders := [bench_sender "127.0.0.1" 0 [bench_fixture 1 1 "RGB" None]] |}.

Definition two_senders_tree : config_tree :=
  {| xml_refresh_rate := Some 10;
     xml_senders := [bench_sender "10.0.0.1" 0 [bench_fixture 1 1 "RGB" None];
                     bench_sender "10.0.0.2" 1 [bench_fixture 1 1 "RGB" None]] |}.

Definition five_dimmers_tree : config_tree :=
  {| xml_refresh_rate := None;
     xml_senders := [bench_sender "127.0.0.1" 0 [bench_fixture 1 5 "dimmer" None]] |}.

Definition negative_channels_tree : config_tree :=
  {| xml_refresh_rate := Some 10;
     xml_senders := [bench_sender "127.0.0.1" 0 [bench_fixture 1 1 "RGB" (Some (-5))]] |}.

(** The consumer of [two_senders_tree], initialised, with a red frame
    delivered. *)
Definition bench_rect (i n : Z) : box * Z * Z := (Box 0 0 0 0 0, i, n).

Definition bench_rgb_sender (errors : nat -> option string) (h : string) (u : Z)
  : @computed_sender (bench errors) :=
  {| endpoint := @Endpoint (bench errors) h 6454;
     c_universe := u;
     c_fixtures := [@ComputedFixture (bench errors) RGB 0 (bench_rect 0 1)] |}.

Definition bench_two_running (errors : nat -> option string)
  : @artnet_consumer (bench errors) :=
  {| config :=
       {| refreshRate := 10;
          senders := [Sender "10.0.0.1" 6454 0 [Fixture RGB 0 1 3 (Box 0 0 0 0 0)];
                      Sender "10.0.0.2" 6454 1 [Fixture RGB 0 1 3 (Box 0 0 0 0 0)]] |};
     computed_senders := [bench_rgb_sender errors "10.0.0.1" 0;
                          bench_rgb_sender errors "10.0.0.2" 1];
     last_frame_ := Some red;
     abort_request_ := false;
     thread_ := running;
     socket := []; slept := []; logged := [] |}.

(** ** More vocabulary for the consumer's properties *)

(** The name a fixture type has in the configuration. *)
Definition FixtureType_name (t : FixtureType) : string :=
  match t with
  | DIMMER => "DIMMER"
  | RGB => "RGB"
  | RGBW => "RGBW"
  end.

(** The channels the fixture definition stores to, from its first
    instance's first to its last instance's last, lie inside the universe. *)
Definition fixture_in_universe (f : fixture) : Prop :=
  0 <= startAddress f
  /\ startAddress f + (fixtureCount f - 1) * fixtureChannels f
     + FixtureType_value (type f) <= 512.

Section Vocabulary.
Context `{Surroundings}.

(** The consumer [c] with the slot, the abort flag and the thread as given,
    after its thread handed [ds] to the socket, slept [zs] and logged [es]. *)
Definition after_activity (c : artnet_consumer) (lf : option frame) (ab : bool)
    (th : thread_state) (ds : list datagram) (zs : list Z) (es : list exception)
  : artnet_consumer :=
  ArtnetConsumer (config c) (computed_senders c) lf ab th
    (socket c ++ ds) (slept c ++ zs) (logged c ++ es).

(** [d] is a packet for one of the senders [css]: the header of the sender's
    universe around 512 bytes, addressed to the sender's endpoint. *)
Definition packet_of (css : list computed_sender) (d : datagram) : Prop :=
  exists s data,
    s ∈ css /\ length data = 512%nat /\ Forall is_uint8 data
    /\ d = Datagram (endpoint s) (spec_packet (c_universe s) data).

(** [e] is the [io_error] for an error the socket reported. *)
Definition socket_error (e : exception) : Prop :=
  exists message n, e = io_error message /\ send_to_error n = Some message.

(** The event delivers a frame that is not empty. *)
Definition delivers_frame (ev : event) : bool :=
  match ev with
  | Send (Some _) => true
  | _ => false
  end.

(** The elapsed time of a turn is a [long long] that is not negative. *)
Definition elapsed_ok (ev : event) : Prop :=
  match ev with
  | Turn elapsed_ms => 0 <= elapsed_ms < 2 ^ 63
  | _ => True
  end.

(** What the thread sleeps in a turn that finds [elapsed_ms] elapsed, when
    that is positive. *)
Definition sleep_time_of (c : artnet_consumer) (elapsed_ms : Z) : Z :=
  wrap_long_long (Z.quot 1000 (refreshRate (config c)) - elapsed_ms).

(** The sum of the configured fixture counts of a sender element. *)
Definition configured_fixture_count (e : sender_element) : Z :=
  foldr (fun fe acc => get (xml_fixture_count fe) (-1) + acc) 0 (xml_fixtures e).

End Vocabulary.

(** ** Video channels (core/video_channel.cpp) *)

Section VideoChannel.

(** [video_format_desc] is declared in core/video_format.h, which is not
    among the sources; the channel reads its [name] and nothing else. *)
Context {video_format_desc : Type} (desc_name : video_format_desc -> string).

(** What a channel asks of the objects it owns, in the order it asks: the
    output, the mixer and the stage it creates, the diagnostics graph, the
    log and the OpenGL device. *)
Inductive channel_call : Type :=
  | new_output (format_desc : video_format_desc)
  | new_mixer (format_desc : video_format_desc)
  | new_stage (format_desc : video_format_desc)
  | graph_set_text (text : string)
  | register_graph
  | log_info (text : string)
  | mixer_set_video_format_desc (format_desc : video_format_desc)
  | output_set_video_format_desc (format_desc : video_format_desc)
  | ogl_gc.

(** [video_channel::implementation]: its two constant members and the calls
    it has made. *)
Record implementation : Type := Implementation {
  index_ : Z;
  format_desc_ : video_format_desc;
  calls : list channel_call
}.

(** [boost::lexical_cast<std::wstring>] of an [int]: its decimal digits, a
    minus sign before them when it is negative. *)
Definition lexical_cast (n : Z) : string := pretty n.

(** [implementation::print]. *)
Definition channel_print (impl : implementation) : string :=
  "video_channel[" +:+ lexical_cast (wrap_int (index_ impl + 1)) +:+ "|"
  +:+ desc_name (format_desc_ impl) +:+ "]".

(** The constructor of [implementation]: the members in the order they are
    declared, then the body. *)
Definition new_implementation (index : Z) (format_desc : video_format_desc)
  : implementation :=
  let impl := Implementation index format_desc
                [new_output format_desc; new_mixer format_desc;
                 new_stage format_desc] in
  Implementation index format_desc
    (calls impl
     ++ [graph_set_text (channel_print impl); register_graph;
         log_info (channel_print impl +:+ " Successfully Initialized.")]).

(** [implementation::set_video_format_desc]. *)
Definition set_video_format_desc (format_desc : video_format_desc)
    (impl : implementation) : implementation :=
  Implementation (index_ impl) (format_desc_ impl)
    (calls impl
     ++ [mixer_set_video_format_desc format_desc;
         output_set_video_format_desc format_desc; ogl_gc]).

(** [video_channel::get_video_format_desc]. *)
Definition get_video_format_desc (impl : implementation) : video_format_desc :=
  format_desc_ impl.

(** No character of the string is a vertical bar. *)
Fixpoint no_bar (s : string) : Prop :=
  match s with
  | EmptyString => True
  | String a rest => a <> "|"%char /\ no_bar rest
  end.

End VideoChannel.

(** ** More of the bench *)

(** A sender whose two fixtures share slot 1: an RGB fixture at address 0 and
    after it a dimmer at address 1. *)
Definition bench_shared_slot_sender : @computed_sender (bench no_errors) :=
  {| endpoint := @Endpoint (bench no_errors) "10.0.0.1" 6454;
     c_universe := 0;
     c_fixtures := [@ComputedFixture (bench no_errors) RGB 0 (bench_rect 0 1);
                    @ComputedFixture (bench no_errors) DIMMER 1 (bench_rect 0 1)] |}.

(** A channel whose format has no more than a name. *)
Definition bench_channel (index : Z) (format_name : string)
  : implementation (video_format_desc := string) :=
  new_implementation (fun format_name => format_name) index format_name.

(** * Properties *)

(** ** Machine integers *)

Lemma wrap_int_id z : is_int z -> wrap_int z = z.
Proof.
  unfold is_int, INT_MIN, INT_MAX, wrap_int. intros Hz.
  rewrite Z.mod_small by lia. lia.
Qed.

Lemma to_uint8_id z : is_uint8 z -> to_uint8 z = z.
Proof. unfold is_uint8, to_uint8. intros Hz. apply Z.mod_small. lia. Qed.

(** ** The dimmer level *)

Lemma spec_dimmer_div c :
  spec_dimmer c = (279 * r c + 547 * g c + 106 * b c) / 1000.
Proof.
  unfold spec_dimmer.
  transitivity (Qfloor ((279 * r c + 547 * g c + 106 * b c) # 1000)); [|reflexivity].
  apply Qfloor_comp. unfold Qeq, inject_Z, Qplus, Qmult. simpl.
  rewrite !Pos2Z.inj_mul. ring.
Qed.

Lemma spec_dimmer_range c : color_ok c -> 0 <= spec_dimmer c <= 237.
Proof.
  intros (Hr & Hg & Hb). rewrite spec_dimmer_div. unfold is_uint8 in *. split.
  - apply Z.div_pos; lia.
  - enough ((279 * r c + 547 * g c + 106 * b c) / 1000 < 238) by lia.
    apply Z.div_lt_upper_bound; lia.
Qed.

Lemma dimmer_table :
  forallb (fun r => forallb (fun g => forallb (fun b => dimmer_entry_ok r g b)
                                              all_uint8) all_uint8) all_uint8
  = true.
Proof. vm_compute. reflexivity. Qed.

Lemma to_Z_of_Z_uint8 z : is_uint8 z -> Uint63.to_Z (Uint63.of_Z z) = z.
Proof.
  intros Hz. rewrite Uint63.of_Z_spec. apply Z.mod_small.
  unfold is_uint8 in Hz. change wB with 9223372036854775808. lia.
Qed.

Lemma in_all_uint8 z : is_uint8 z -> In (Uint63.of_Z z) all_uint8.
Proof.
  intros Hz. unfold all_uint8.
  replace z with (Z.of_nat (Z.to_nat z)) by (unfold is_uint8 in Hz; lia).
  apply (in_map (fun n => Uint63.of_Z (Z.of_nat n))). apply in_seq.
  unfold is_uint8 in Hz. lia.
Qed.

Lemma forallb_all_uint8 (P : int -> int -> int -> bool) :
  forallb (fun r => forallb (fun g => forallb (fun b => P r g b)
                                              all_uint8) all_uint8) all_uint8
  = true ->
  forall r g b, is_uint8 r -> is_uint8 g -> is_uint8 b ->
    P (Uint63.of_Z r) (Uint63.of_Z g) (Uint63.of_Z b) = true.
Proof.
  intros Ht r g b Hr Hg Hb.
  pose proof (proj1 (forallb_forall _ _) Ht _ (in_all_uint8 _ Hr)) as Ht1.
  pose proof (proj1 (forallb_forall _ _) Ht1 _ (in_all_uint8 _ Hg)) as Ht2.
  exact (proj1 (forallb_forall _ _) Ht2 _ (in_all_uint8 _ Hb)).
Qed.

Lemma dimmer_entry c :
  color_ok c ->
  dimmer_entry_ok (Uint63.of_Z (r c)) (Uint63.of_Z (g c)) (Uint63.of_Z (b c)) = true.
Proof.
  intros (Hr & Hg & Hb). exact (forallb_all_uint8 _ dimmer_table _ _ _ Hr Hg Hb).
Qed.

Lemma eqb_of_Z_uint8 z k :
  is_uint8 z -> is_uint8 k -> (Uint63.of_Z z =? Uint63.of_Z k)%uint63 = (z =? k).
Proof.
  intros Hz Hk. destruct (Z.eqb_spec z k) as [->|Hne].
  - apply Uint63.eqb_refl.
  - destruct (Uint63.eqb _ _) eqn:E; [|reflexivity].
    apply Uint63.eqb_correct in E. apply (f_equal Uint63.to_Z) in E.
    rewrite !to_Z_of_Z_uint8 in E by assumption. contradiction.
Qed.

Lemma dimmer_short63_of_Z c :
  color_ok c ->
  dimmer_short63 (Uint63.of_Z (r c)) (Uint63.of_Z (g c)) (Uint63.of_Z (b c))
  = dimmer_short c.
Proof.
  intros (Hr & Hg & Hb). unfold dimmer_short63, dimmer_short.
  change 19%uint63 with (Uint63.of_Z 19). change 251%uint63 with (Uint63.of_Z 251).
  change 117%uint63 with (Uint63.of_Z 117). change 119%uint63 with (Uint63.of_Z 119).
  change 135%uint63 with (Uint63.of_Z 135). change 9%uint63 with (Uint63.of_Z 9).
  change 183%uint63 with (Uint63.of_Z 183). change 91%uint63 with (Uint63.of_Z 91).
  rewrite !eqb_of_Z_uint8 by (assumption || (unfold is_uint8; lia)). reflexivity.
Qed.

Lemma dimmer_exact63_of_Z c :
  color_ok c ->
  Uint63.to_Z (dimmer_exact63 (Uint63.of_Z (r c)) (Uint63.of_Z (g c))
                              (Uint63.of_Z (b c)))
  = spec_dimmer c.
Proof.
  intros (Hr & Hg & Hb). rewrite spec_dimmer_div. unfold dimmer_exact63.
  rewrite Uint63.div_spec, !Uint63.add_spec, !Uint63.mul_spec.
  rewrite !to_Z_of_Z_uint8 by assumption.
  change (Uint63.to_Z 279) with 279. change (Uint63.to_Z 547) with 547.
  change (Uint63.to_Z 106) with 106. change (Uint63.to_Z 1000) with 1000.
  change wB with 9223372036854775808. unfold is_uint8 in *.
  rewrite (Z.mod_small (279 * r c)), (Z.mod_small (547 * g c)),
    (Z.mod_small (106 * b c)) by lia.
  rewrite (Z.mod_small (279 * r c + 547 * g c)) by lia.
  rewrite Z.mod_small by lia. reflexivity.
Qed.

(** [double_trunc] and the decoding agree on a sample of levels and on the
    integers a byte can hold. *)
Lemma double_trunc_agrees :
  forallb (fun r =>
    forallb (fun gb =>
      Uint63.to_Z (double_trunc (dimmer_level63 r gb.1 gb.2))
      =? double_trunc_SF (dimmer_level63 r gb.1 gb.2))
      [(0, 0); (255, 255); (251, 117); (135, 9); (251, 91); (1, 254)]%uint63
    && (Uint63.to_Z (double_trunc (PrimFloat.of_uint63 r)) =? Uint63.to_Z r))
    all_uint8
  = true.
Proof. vm_compute. reflexivity. Qed.

(** The truncated level: the exact floor, one less at the three short
    colours. *)
Lemma dimmer_trunc c :
  color_ok c ->
  Uint63.to_Z (double_trunc (dimmer_level c))
  = if dimmer_short c then spec_dimmer c - 1 else spec_dimmer c.
Proof.
  intros Hc. pose proof (dimmer_entry c Hc) as He. unfold dimmer_entry_ok in He.
  apply andb_prop in He as [He _]. apply andb_prop in He as [He _].
  apply Uint63.eqb_correct in He.
  change (dimmer_level c)
    with (dimmer_level63 (Uint63.of_Z (r c)) (Uint63.of_Z (g c)) (Uint63.of_Z (b c))).
  rewrite He, dimmer_short63_of_Z by assumption.
  pose proof (spec_dimmer_range c Hc) as Hs.
  destruct (dimmer_short c) eqn:Hshort.
  - rewrite Uint63.sub_spec, dimmer_exact63_of_Z by assumption.
    change (Uint63.to_Z 1) with 1. change wB with 9223372036854775808.
    assert (1 <= spec_dimmer c) as H1.
    { rewrite spec_dimmer_div. unfold dimmer_short in Hshort.
      rewrite !orb_true_iff, !andb_true_iff, !Z.eqb_eq in Hshort.
      apply Z.div_le_lower_bound; lia. }
    apply Z.mod_small. lia.
  - by apply dimmer_exact63_of_Z.
Qed.

Lemma dimmer_trunc_range c :
  color_ok c -> 0 <= Uint63.to_Z (double_trunc (dimmer_level c)) <= 237.
Proof.
  intros Hc. rewrite dimmer_trunc by done.
  pose proof (spec_dimmer_range c Hc).
  destruct (dimmer_short c) eqn:Hshort; [|lia].
  enough (1 <= spec_dimmer c) by lia.
  rewrite spec_dimmer_div. unfold dimmer_short in Hshort.
  rewrite !orb_true_iff, !andb_true_iff, !Z.eqb_eq in Hshort.
  apply Z.div_le_lower_bound; lia.
Qed.

(** The byte a dimmer gets is the truncated level: the conversion to
    [std::uint8_t] has nothing to cut off. *)
Lemma dimmer_byte c :
  color_ok c ->
  double_to_uint8 (dimmer_level c) = Uint63.to_Z (double_trunc (dimmer_level c)).
Proof.
  intros Hc. unfold double_to_uint8. apply to_uint8_id.
  pose proof (dimmer_trunc_range c Hc). unfold is_uint8. lia.
Qed.

(** ** The claims about the channel encoding *)

(** C3. For every colour of three unsigned 8-bit channels, an RGBW fixture
    gets the four bytes [(r - w, g - w, b - w, w)] with [w = min(r, g, b)];
    every one of them is the exact value, within [0, 255] (nothing wraps
    below zero), and each of [r' + w], [g' + w], [b' + w] is again the
    channel it came from, within [0, 255] (nothing wraps above 255). *)
Theorem rgbw_encoding (c : color) :
  color_ok c ->
  exists r' g' b' w,
    encode RGBW c = [r'; g'; b'; w]
    /\ w = Z.min (Z.min (r c) (g c)) (b c)
    /\ r' = r c - w /\ g' = g c - w /\ b' = b c - w
    /\ is_uint8 r' /\ is_uint8 g' /\ is_uint8 b' /\ is_uint8 w
    /\ r' + w = r c /\ g' + w = g c /\ b' + w = b c
    /\ to_uint8 (r' + w) = r c /\ to_uint8 (g' + w) = g c
    /\ to_uint8 (b' + w) = b c.
Proof.
  intros (Hr & Hg & Hb). unfold is_uint8 in *.
  set (w := Z.min (Z.min (r c) (g c)) (b c)).
  assert (0 <= w <= r c /\ w <= g c /\ w <= b c) as Hw by (unfold w; lia).
  exists (r c - w), (g c - w), (b c - w), w.
  split.
  { unfold encode. fold w.
    rewrite (to_uint8_id w) by (unfold is_uint8; lia).
    rewrite !to_uint8_id by (unfold is_uint8; lia). reflexivity. }
  replace (r c - w + w) with (r c) by lia.
  replace (g c - w + w) with (g c) by lia.
  replace (b c - w + w) with (b c) by lia.
  rewrite !to_uint8_id by (unfold is_uint8; lia).
  repeat split; lia.
Qed.

(** C8 (amended).  For every colour of three unsigned 8-bit channels, a
    dimmer fixture gets one byte: the integer part [t] of the double
    [0.279 r + 0.547 g + 0.106 b], each product and sum rounded to the
    nearest double ([t <= level < t + 1]; truncation, not rounding).  It is
    the floor of the exact sum, except at the colours (19, 251, 117),
    (119, 135, 9) and (183, 251, 91), where the exact sum is an integer, the
    double lies just below it and the byte is one less.  It lies in
    [0, 255]. *)
Theorem dimmer_encoding (c : color) :
  color_ok c ->
  exists v,
    encode DIMMER c = [v]
    /\ v = Uint63.to_Z (double_trunc (dimmer_level c))
    /\ (PrimFloat.of_uint63 (double_trunc (dimmer_level c)) <=? dimmer_level c)%float
       = true
    /\ (dimmer_level c
        <? PrimFloat.of_uint63 (double_trunc (dimmer_level c) + 1)%uint63)%float
       = true
    /\ v = (if dimmer_short c then spec_dimmer c - 1 else spec_dimmer c)
    /\ 0 <= v <= 255.
Proof.
  intros Hc. exists (Uint63.to_Z (double_trunc (dimmer_level c))).
  pose proof (dimmer_entry c Hc) as He. unfold dimmer_entry_ok in He.
  apply andb_prop in He as [He Hlt]. apply andb_prop in He as [_ Hle].
  pose proof (dimmer_trunc_range c Hc).
  split; [simpl; by rewrite dimmer_byte|]. split; [done|].
  split; [exact Hle|]. split; [exact Hlt|].
  split; [by apply dimmer_trunc|lia].
Qed.

(** C10. For every colour of three unsigned 8-bit channels, the byte a
    dimmer fixture gets is at most 237: the coefficients sum to 0.932, below
    1, and the level is truncated.  Full white (255, 255, 255) gets 237, and
    no colour gets 255. *)
Theorem dimmer_at_most_237 (c : color) :
  color_ok c ->
  exists v,
    encode DIMMER c = [v]
    /\ 0 <= v <= 237
    /\ encode DIMMER c <> [255]
    /\ encode DIMMER (Color 255 255 255) = [237]
    /\ ((279 # 1000) + (547 # 1000) + (106 # 1000) == 932 # 1000)%Q
    /\ (932 # 1000 < 1)%Q.
Proof.
  intros Hc. exists (Uint63.to_Z (double_trunc (dimmer_level c))).
  pose proof (dimmer_trunc_range c Hc) as Hrange.
  assert (encode DIMMER c = [Uint63.to_Z (double_trunc (dimmer_level c))]) as He
    by (simpl; by rewrite dimmer_byte).
  split; [done|]. split; [done|]. split.
  { rewrite He. intros Heq. inversion Heq as [Hv]. rewrite Hv in Hrange. lia. }
  split; [by vm_compute|]. split; reflexivity.
Qed.

Section Properties.
Context `{Surroundings}.

(** ** The universe buffer *)

Lemma encode_length t c : Z.of_nat (length (encode t c)) = FixtureType_value t.
Proof. destruct t; reflexivity. Qed.

Lemma store_bytes_length vs : forall buf at_ buf',
  store_bytes buf at_ vs = Some buf' -> length buf' = length buf.
Proof.
  induction vs as [|v vs IH]; intros buf at_ buf' Hs; simpl in Hs.
  - by inversion Hs.
  - case_decide; [|done]. apply IH in Hs. by rewrite length_insert in Hs.
Qed.

Lemma store_bytes_defined vs : forall buf at_,
  0 <= at_ -> at_ + Z.of_nat (length vs) <= Z.of_nat (length buf) ->
  is_Some (store_bytes buf at_ vs).
Proof.
  induction vs as [|v vs IH]; intros buf at_ H0 Hle; simpl in *; [by eexists|].
  rewrite decide_True by lia. apply IH; [lia|]. rewrite length_insert. lia.
Qed.

Lemma store_bytes_inside vs : forall buf at_ buf',
  vs <> [] -> store_bytes buf at_ vs = Some buf' ->
  0 <= at_ /\ at_ + Z.of_nat (length vs) <= Z.of_nat (length buf).
Proof.
  induction vs as [|v vs IH]; intros buf at_ buf' Hne Hs; [done|].
  simpl in Hs. case_decide as Hin; [|done].
  destruct vs as [|v' vs']; [simpl; lia|].
  apply IH in Hs; [|done]. rewrite length_insert in Hs.
  change (length (v :: v' :: vs')) with (S (length (v' :: vs'))). lia.
Qed.

Lemma store_bytes_other vs : forall buf at_ buf' (k : nat),
  store_bytes buf at_ vs = Some buf' ->
  ~ (at_ <= Z.of_nat k < at_ + Z.of_nat (length vs)) ->
  buf' !! k = buf !! k.
Proof.
  induction vs as [|v vs IH]; intros buf at_ buf' k Hs Hk; simpl in Hs.
  - by inversion Hs.
  - case_decide as Hin; [|done]. simpl in Hk.
    rewrite (IH _ _ _ k Hs) by lia.
    apply list_lookup_insert_ne. lia.
Qed.

Lemma write_fixtures_length fr cfs : forall buf buf',
  write_fixtures fr buf cfs = Some buf' -> length buf' = length buf.
Proof.
  induction cfs as [|cf cfs IH]; intros buf buf' Hw; simpl in Hw.
  - by inversion Hw.
  - unfold write_fixture in Hw.
    destruct (store_bytes _ _ _) as [buf1|] eqn:Hs; [|done].
    apply IH in Hw. apply store_bytes_length in Hs. congruence.
Qed.

Lemma write_fixtures_defined fr cfs : forall buf,
  length buf = 512%nat -> Forall fixture_fits cfs ->
  is_Some (write_fixtures fr buf cfs).
Proof.
  induction cfs as [|cf cfs IH]; intros buf Hlen Hfit; simpl; [by eexists|].
  inversion Hfit as [|? ? [H0 H1] Hfit']; subst.
  unfold write_fixture.
  destruct (store_bytes_defined (encode (c_type cf) (average_color fr (rectangle cf)))
              buf (c_address cf)) as [buf1 Hs].
  { done. }
  { rewrite encode_length, Hlen. lia. }
  rewrite Hs. apply IH; [|done]. apply store_bytes_length in Hs. congruence.
Qed.

Lemma write_fixtures_fit fr cfs : forall buf buf',
  length buf = 512%nat -> write_fixtures fr buf cfs = Some buf' ->
  Forall fixture_fits cfs.
Proof.
  induction cfs as [|cf cfs IH]; intros buf buf' Hlen Hw; [constructor|].
  simpl in Hw. unfold write_fixture in Hw.
  destruct (store_bytes _ _ _) as [buf1|] eqn:Hs; [|done].
  constructor.
  - apply store_bytes_inside in Hs.
    + rewrite encode_length, Hlen in Hs. unfold fixture_fits. lia.
    + by destruct (c_type cf).
  - apply store_bytes_length in Hs. eapply IH; [|done]. congruence.
Qed.

Lemma write_fixtures_other fr cfs : forall buf buf' (k : nat),
  write_fixtures fr buf cfs = Some buf' ->
  (forall cf, cf ∈ cfs -> ~ writes_slot cf (Z.of_nat k)) ->
  buf' !! k = buf !! k.
Proof.
  induction cfs as [|cf cfs IH]; intros buf buf' k Hw Hk; simpl in Hw.
  - by inversion Hw.
  - unfold write_fixture in Hw.
    destruct (store_bytes _ _ _) as [buf1|] eqn:Hs; [|done].
    rewrite (IH _ _ k Hw) by (intros cf' Hin; apply Hk; by right).
    eapply store_bytes_other; [done|].
    rewrite encode_length. apply (Hk cf). by left.
Qed.

Lemma fill_dmx_data_length s fr data :
  fill_dmx_data s fr = Some data -> length data = 512%nat.
Proof.
  intros Hf. apply write_fixtures_length in Hf. by rewrite length_replicate in Hf.
Qed.

Lemma fill_dmx_data_defined s fr :
  Forall fixture_fits (c_fixtures s) <-> is_Some (fill_dmx_data s fr).
Proof.
  split.
  - apply write_fixtures_defined, length_replicate.
  - intros [data Hf]. eapply write_fixtures_fit; [|done]. apply length_replicate.
Qed.

Lemma fill_dmx_data_unwritten s fr data (k : nat) :
  fill_dmx_data s fr = Some data -> (k < 512)%nat ->
  (forall cf, cf ∈ c_fixtures s -> ~ writes_slot cf (Z.of_nat k)) ->
  data !! k = Some 0.
Proof.
  intros Hf Hk Hun. unfold fill_dmx_data in Hf.
  rewrite (write_fixtures_other _ _ _ _ k Hf Hun).
  by apply lookup_replicate_2.
Qed.

(** ** Packet framing *)

Lemma and_255_uint8 z : is_uint8 (Z.land z 255).
Proof.
  unfold is_uint8. change 255 with (Z.ones 8). rewrite Z.land_ones by lia.
  apply Z.mod_pos_bound. lia.
Qed.

Lemma dmx_buffer_data (hdr data : list Z) :
  length data = 512%nat ->
  dmx_buffer_byte hdr data 512 <$> seqZ 18 512 = data.
Proof.
  intros Hlen. apply list_eq. intros i. rewrite list_lookup_fmap.
  destruct (decide (i < 512)%nat) as [Hi|Hi].
  - rewrite lookup_seqZ_lt by lia. simpl. unfold dmx_buffer_byte.
    rewrite (proj2 (Z.ltb_ge _ _)) by lia.
    rewrite (proj2 (Z.ltb_lt _ _)) by lia.
    replace (Z.to_nat (18 + Z.of_nat i - 18)) with i by lia.
    destruct (nth_lookup_or_length data i 0) as [->|Hge]; [done|lia].
  - rewrite lookup_seqZ_ge by lia. simpl. symmetry. apply lookup_ge_None. lia.
Qed.

Lemma dmx_buffer_spec u data :
  length data = 512%nat -> dmx_buffer u data 512 = spec_packet u data.
Proof.
  intros Hlen. unfold dmx_buffer.
  rewrite (seqZ_app 0 18 512), fmap_app by lia.
  change (0 + 18) with 18. rewrite dmx_buffer_data by done.
  unfold spec_packet. rewrite !app_assoc. f_equal.
  cbv -[Z.land Z.shiftr to_uint8].
  rewrite !to_uint8_id by (apply and_255_uint8). reflexivity.
Qed.

Lemma spec_packet_length u data :
  length data = 512%nat -> length (spec_packet u data) = 530%nat.
Proof. intros Hlen. unfold spec_packet. rewrite !length_app, Hlen. reflexivity. Qed.

Lemma send_dmx_data_socket s data len c :
  socket (send_dmx_data s data len c).1
  = socket c ++ [Datagram (endpoint s) (dmx_buffer (c_universe s) data len)].
Proof. unfold send_dmx_data. by destruct (send_to_error _). Qed.

(** ** Geometry *)

Lemma compute_fixtures_from_spec f todo : forall i,
  0 <= i -> 0 <= startAddress f -> 0 <= fixtureChannels f ->
  startAddress f + (i + Z.of_nat todo - 1) * fixtureChannels f <= INT_MAX ->
  compute_fixtures_from f todo i
  = (fun j => {| c_type := type f;
                 c_address := startAddress f + j * fixtureChannels f;
                 rectangle := compute_rect (fixtureBox f) j (fixtureCount f) |})
      <$> seqZ i (Z.of_nat todo).
Proof.
  induction todo as [|todo IH]; intros i Hi Hs Hc Hmax; [done|].
  rewrite seqZ_cons by lia. cbn [compute_fixtures_from fmap list_fmap].
  assert (i * fixtureChannels f <= (i + Z.of_nat (S todo) - 1) * fixtureChannels f)
    by (apply Z.mul_le_mono_nonneg_r; lia).
  assert (0 <= i * fixtureChannels f) by lia.
  rewrite (wrap_int_id (i * _)) by (unfold is_int, INT_MIN, INT_MAX in *; lia).
  rewrite wrap_int_id by (unfold is_int, INT_MIN, INT_MAX in *; lia).
  f_equal. replace (Z.succ i) with (i + 1) by lia.
  replace (Z.pred (Z.of_nat (S todo))) with (Z.of_nat todo) by lia.
  apply IH; lia.
Qed.

(** What a fixture element that the reader accepts is read as. *)
Lemma get_fixture_Returns e f :
  get_fixture e = Returns f ->
  let s := get (xml_start_address e) 0 in
  let k := get (xml_fixture_channels e) (-1) in
  1 <= s /\ 1 <= fixtureCount f
  /\ parse_type (get (xml_type e) ""%string) = Returns (type f)
  /\ startAddress f = wrap_int (s - 1)
  /\ fixtureCount f = get (xml_fixture_count e) (-1)
  /\ fixtureChannels f = (if k <? 0 then FixtureType_value (type f) else k)
  /\ FixtureType_value (type f) <= fixtureChannels f.
Proof.
  unfold get_fixture. intros Hg.
  destruct (ptree_verify_element_name _ _); simpl in Hg; [|done].
  destruct (Z.ltb_spec (get (xml_start_address e) 0) 1); [done|].
  destruct (Z.ltb_spec (get (xml_fixture_count e) (-1)) 1); [done|].
  destruct (String.eqb _ _); [done|].
  destruct (parse_type _) as [t|] eqn:Ht; simpl in Hg; [|done].
  destruct (Z.ltb_spec (if get (xml_fixture_channels e) (-1) <? 0
                        then FixtureType_value t
                        else get (xml_fixture_channels e) (-1))
                       (FixtureType_value t)); [done|].
  inversion Hg; subst; simpl. repeat split; try done; lia.
Qed.

Lemma compute_fixtures_app h p u fs1 fs2 :
  compute_fixtures (Sender h p u (fs1 ++ fs2))
  = compute_fixtures (Sender h p u fs1) ++ compute_fixtures (Sender h p u fs2).
Proof. unfold compute_fixtures. simpl. apply flat_map_app. Qed.

Lemma compute_senders_again c c1 :
  compute_senders c = Returns c1 -> compute_senders c1 = Returns c1.
Proof.
  unfold compute_senders. intros Hc.
  destruct (for_each compute_sender (senders (config c))) as [css|] eqn:Hf;
    simpl in Hc; [|done].
  inversion Hc; subst. simpl. rewrite Hf. reflexivity.
Qed.

(** ** Reading the configuration and constructing the consumer *)

Lemma throws_returns {A} (m : exceptional A) : throws m <-> returns m = false.
Proof. destruct m; simpl; intuition congruence. Qed.

Lemma for_each_returns {A B} (body : A -> exceptional B) xs :
  returns (for_each body xs) = forallb (fun a => returns (body a)) xs.
Proof.
  induction xs as [|a xs IH]; [done|]. simpl.
  destruct (body a); simpl; [|done].
  rewrite <- IH. by destruct (for_each body xs).
Qed.

Lemma for_each_Forall2 {A B} (body : A -> exceptional B) xs : forall ys,
  for_each body xs = Returns ys -> Forall2 (fun a y => body a = Returns y) xs ys.
Proof.
  induction xs as [|a xs IH]; intros ys Hf; simpl in Hf.
  - inversion Hf. constructor.
  - destruct (body a) as [y|] eqn:Hb; simpl in Hf; [|done].
    destruct (for_each body xs) as [ys'|]; simpl in Hf; [|done].
    inversion Hf; subst. constructor; auto.
Qed.

Lemma for_each_Throws {A B} (body : A -> exceptional B) xs e :
  for_each body xs = Throws e -> exists a, a ∈ xs /\ body a = Throws e.
Proof.
  induction xs as [|a xs IH]; intros Hf; simpl in Hf; [done|].
  destruct (body a) as [y|e'] eqn:Hb; simpl in Hf.
  - destruct (for_each body xs) as [ys'|e'']; simpl in Hf; [done|].
    inversion Hf; subst. destruct IH as (a' & Hin & Ha'); [done|].
    exists a'. split; [by right|done].
  - inversion Hf; subst. exists a. split; [by left|done].
Qed.

Lemma forallb_negb_existsb {A} (p : A -> bool) xs :
  forallb (fun a => negb (p a)) xs = negb (existsb p xs).
Proof.
  induction xs as [|a xs IH]; [done|]. simpl. rewrite IH. by destruct (p a).
Qed.

Lemma forallb_ext' {A} (p q : A -> bool) xs :
  (forall a, p a = q a) -> forallb p xs = forallb q xs.
Proof. intros Hpq. induction xs as [|a xs IH]; [done|]. simpl. by rewrite Hpq, IH. Qed.

Lemma get_fixture_returns e : returns (get_fixture e) = negb (fixture_rejected e).
Proof.
  unfold get_fixture, fixture_rejected.
  destruct (ptree_verify_element_name _ _); simpl; [|done].
  destruct (Z.ltb_spec (get (xml_start_address e) 0) 1); simpl; [done|].
  destruct (Z.ltb_spec (get (xml_fixture_count e) (-1)) 1); simpl; [done|].
  destruct (String.eqb _ _); simpl; [done|].
  destruct (parse_type _) as [t|]; simpl; [|done].
  assert (1 <= FixtureType_value t) by (destruct t; simpl; lia).
  unfold get. destruct (xml_fixture_channels e) as [k|]; simpl.
  - destruct (Z.ltb_spec k 0), (Z.leb_spec 0 k); try lia; simpl.
    + by rewrite Z.ltb_irrefl.
    + by destruct (Z.ltb_spec k (FixtureType_value t)).
  - by rewrite Z.ltb_irrefl.
Qed.

Lemma get_sender_returns e : returns (get_sender e) = negb (sender_rejected e).
Proof.
  unfold get_sender, sender_rejected.
  destruct (ptree_verify_element_name _ _); simpl; [|done].
  unfold get_fixtures_ptree.
  rewrite <- forallb_negb_existsb.
  rewrite <- (forallb_ext' _ _ _ get_fixture_returns), <- for_each_returns.
  by destruct (for_each get_fixture _).
Qed.

Lemma get_sender_host e s : get_sender e = Returns s -> host s = host_of e.
Proof.
  unfold get_sender. destruct (ptree_verify_element_name _ _); simpl; [|done].
  destruct (get_fixtures_ptree e); simpl; [|done]. by inversion 1.
Qed.

Lemma compute_sender_returns s :
  returns (compute_sender s)
  = match from_string (host s) with Some _ => true | None => false end.
Proof. unfold compute_sender. by destruct (from_string _). Qed.

Lemma compute_senders_hosts es ss :
  Forall2 (fun e s => get_sender e = Returns s) es ss ->
  forallb (fun s => returns (compute_sender s)) ss
  = negb (existsb host_unparsable es).
Proof.
  induction 1 as [|e s es ss He _ IH]; [done|]. simpl. rewrite IH.
  rewrite compute_sender_returns, (get_sender_host _ _ He).
  unfold host_unparsable. by destruct (from_string _).
Qed.

Lemma create_returns ptree :
  returns (create_preconfigured_consumer ptree) = negb (rejected ptree).
Proof.
  unfold create_preconfigured_consumer, rejected.
  destruct (get (xml_refresh_rate ptree) 10 <? 1); simpl; [done|].
  pose proof (for_each_returns get_sender (xml_senders ptree)) as Hr.
  rewrite (forallb_ext' _ _ _ get_sender_returns), forallb_negb_existsb in Hr.
  unfold get_senders_ptree.
  destruct (for_each get_sender (xml_senders ptree)) as [ss|] eqn:Hs; simpl in *.
  - symmetry in Hr. apply negb_true_iff in Hr. rewrite Hr. simpl.
    unfold new_artnet_consumer, compute_senders. simpl.
    rewrite <- (compute_senders_hosts _ _ (for_each_Forall2 _ _ _ Hs)).
    rewrite <- for_each_returns. by destruct (for_each compute_sender ss).
  - symmetry in Hr. apply negb_false_iff in Hr. by rewrite Hr.
Qed.

Lemma Forall2_length' {A B} (R : A -> B -> Prop) xs ys :
  Forall2 R xs ys -> length xs = length ys.
Proof. induction 1; simpl; congruence. Qed.

(** What a consumer that was constructed looks like. *)
Lemma create_Returns ptree c :
  create_preconfigured_consumer ptree = Returns c ->
  thread_ c = not_started /\ abort_request_ c = false /\ last_frame_ c = None
  /\ socket c = [] /\ logged c = []
  /\ refreshRate (config c) = get (xml_refresh_rate ptree) 10
  /\ 1 <= refreshRate (config c)
  /\ length (senders (config c)) = length (xml_senders ptree)
  /\ length (computed_senders c) = length (xml_senders ptree).
Proof.
  unfold create_preconfigured_consumer.
  destruct (Z.ltb_spec (get (xml_refresh_rate ptree) 10) 1); [done|].
  unfold get_senders_ptree.
  destruct (for_each get_sender (xml_senders ptree)) as [ss|] eqn:Hs; simpl; [|done].
  unfold new_artnet_consumer, compute_senders. simpl.
  destruct (for_each compute_sender ss) as [css|] eqn:Hc; simpl; [|done].
  intros Hr. inversion Hr; subst; simpl.
  apply for_each_Forall2, Forall2_length' in Hs.
  apply for_each_Forall2, Forall2_length' in Hc.
  repeat split; try done; congruence.
Qed.

Lemma get_fixture_Throws e ex :
  get_fixture e = Throws ex ->
  (exists msg, ex = user_error msg /\ msg ∈ reader_messages)
  \/ (exists el expected, ptree_verify_element_name el expected = Throws ex).
Proof.
  unfold get_fixture. intros Hg.
  destruct (ptree_verify_element_name _ _) eqn:Hv; simpl in Hg.
  2: { inversion Hg; subst. right. eauto. }
  left. unfold reader_messages.
  destruct (_ <? 1); [inversion Hg; eexists; split; [done|set_solver]|].
  destruct (_ <? 1); [inversion Hg; eexists; split; [done|set_solver]|].
  destruct (String.eqb _ _); [inversion Hg; eexists; split; [done|set_solver]|].
  destruct (parse_type _) as [t|ex'] eqn:Hp; simpl in Hg.
  - destruct (_ <? _); inversion Hg. eexists; split; [done|set_solver].
  - inversion Hg; subst. unfold parse_type in Hp.
    repeat (destruct (iequals _ _); [done|]). inversion Hp.
    eexists; split; [done|set_solver].
Qed.

Lemma create_Throws ptree ex :
  create_preconfigured_consumer ptree = Throws ex ->
  (exists msg, ex = user_error msg /\ msg ∈ reader_messages)
  \/ ex = system_error "Invalid argument"
  \/ (exists el expected, ptree_verify_element_name el expected = Throws ex).
Proof.
  unfold create_preconfigured_consumer. intros Hc.
  destruct (_ <? 1).
  { inversion Hc. left. eexists; split; [done|]. unfold reader_messages. set_solver. }
  unfold get_senders_ptree in Hc.
  destruct (for_each get_sender (xml_senders ptree)) as [ss|ex'] eqn:Hs; simpl in Hc.
  - right. left. unfold new_artnet_consumer, compute_senders in Hc. simpl in Hc.
    destruct (for_each compute_sender ss) as [css|ex'] eqn:Hcs; simpl in Hc; [done|].
    inversion Hc; subst. apply for_each_Throws in Hcs as (s & _ & Hcs).
    unfold compute_sender in Hcs. destruct (from_string _); by inversion Hcs.
  - inversion Hc; subst. apply for_each_Throws in Hs as (e & _ & He).
    unfold get_sender in He.
    destruct (ptree_verify_element_name _ _) eqn:Hv; simpl in He.
    2: { inversion He; subst. right. right. eauto. }
    unfold get_fixtures_ptree in He.
    destruct (for_each get_fixture _) as [fs|ex'] eqn:Hf; simpl in He; [done|].
    inversion He; subst. apply for_each_Throws in Hf as (fe & _ & Hfe).
    apply get_fixture_Throws in Hfe as [?|?]; auto.
Qed.

(** ** Diagnostics *)

Lemma state_entries c (k : string) :
  state c !! k
  = if decide (k = "artnet/refresh-rate"%string)
    then Some (refreshRate (config c))
    else if decide (k = "artnet/senders"%string)
    then Some (Z.of_nat (length (senders (config c))))
    else if decide (k = "artnet/computed-senders"%string)
    then Some (Z.of_nat (length (computed_senders c)))
    else None.
Proof.
  unfold state. repeat case_decide; subst; by simplify_map_eq.
Qed.

(** ** The frame slot *)

Lemma set_last_frame__same c : set_last_frame_ (last_frame_ c) c = c.
Proof. by destruct c. Qed.

Lemma deliver_all_last frames : forall c,
  deliver_all frames c = set_last_frame_ (default (last_frame_ c) (last frames)) c.
Proof.
  induction frames as [|fr frames IH] using rev_ind; intros c.
  - simpl. symmetry. apply set_last_frame__same.
  - unfold deliver_all in *. rewrite foldl_app. simpl. rewrite IH, last_snoc. done.
Qed.

Lemma run_app evs1 evs2 c :
  run (evs1 ++ evs2) c
  = match run evs1 c with Some c' => run evs2 c' | None => None end.
Proof.
  revert c. induction evs1 as [|ev evs1 IH]; intros c; [done|]. simpl.
  destruct (step ev c); [apply IH|done].
Qed.

Lemma run_sends frames c : run (Send <$> frames) c = Some (deliver_all frames c).
Proof.
  revert c. induction frames as [|fr frames IH]; intros c; [done|]. simpl. apply IH.
Qed.

(** ** Sending *)

Lemma append_socket_nil c : append_socket [] c = c.
Proof. destruct c. unfold append_socket. simpl. by rewrite app_nil_r. Qed.

Lemma append_socket_app ds1 ds2 c :
  append_socket ds2 (append_socket ds1 c) = append_socket (ds1 ++ ds2) c.
Proof. unfold append_socket. simpl. by rewrite app_assoc. Qed.

Lemma sent_since_append ds c : sent_since c (append_socket ds c) = ds.
Proof. unfold sent_since. simpl. apply drop_app_length. Qed.

Lemma send_computed_sender_fits s fr c :
  sender_fits s ->
  send_computed_sender s fr c
  = Some (append_socket [datagram_for fr s] c,
          match send_to_error (length (socket c)) with
          | None => Returns tt
          | Some message => Throws (io_error message)
          end).
Proof.
  intros Hfit. apply (fill_dmx_data_defined s fr) in Hfit as [data Hd].
  unfold send_computed_sender, datagram_for, send_dmx_data. rewrite Hd. simpl.
  by destruct (send_to_error _).
Qed.

(** Every send succeeds: every sender gets its datagram. *)
Lemma send_each_ok fr todo : forall c,
  Forall sender_fits todo ->
  (forall i, (i < length todo)%nat ->
             send_to_error (length (socket c) + i) = None) ->
  send_each fr todo c = Some (append_socket (datagram_for fr <$> todo) c, Returns tt).
Proof.
  induction todo as [|s todo IH]; intros c Hfit Hok; simpl.
  - by rewrite append_socket_nil.
  - inversion Hfit as [|? ? Hs Hfit']; subst.
    rewrite send_computed_sender_fits by done.
    pose proof (Hok 0%nat ltac:(simpl; lia)) as H0. rewrite Nat.add_0_r in H0.
    rewrite H0, IH; [by rewrite append_socket_app|done|].
    intros i Hi. simpl. rewrite length_app. simpl.
    replace (length (socket c) + 1 + i)%nat with (length (socket c) + S i)%nat by lia.
    apply Hok. simpl. lia.
Qed.

(** The first failing send ends the loop: the senders after it get nothing. *)
Lemma send_each_fail fr before s after message : forall c,
  Forall sender_fits (before ++ [s]) ->
  (forall i, (i < length before)%nat ->
             send_to_error (length (socket c) + i) = None) ->
  send_to_error (length (socket c) + length before) = Some message ->
  send_each fr (before ++ s :: after) c
  = Some (append_socket (datagram_for fr <$> before ++ [s]) c,
          Throws (io_error message)).
Proof.
  induction before as [|s0 before IH]; intros c Hfit Hok Hfail; simpl.
  - inversion Hfit as [|? ? Hs _]; subst.
    rewrite send_computed_sender_fits by done.
    simpl in Hfail. rewrite Nat.add_0_r in Hfail. by rewrite Hfail.
  - inversion Hfit as [|? ? Hs Hfit']; subst.
    rewrite send_computed_sender_fits by done.
    pose proof (Hok 0%nat ltac:(simpl; lia)) as H0. rewrite Nat.add_0_r in H0.
    rewrite H0, IH; [by rewrite append_socket_app|done| |].
    + intros i Hi. simpl. rewrite length_app. simpl.
      replace (length (socket c) + 1 + i)%nat with (length (socket c) + S i)%nat by lia.
      apply Hok. simpl. lia.
    + simpl. rewrite length_app. simpl.
      replace (length (socket c) + 1 + length before)%nat
        with (length (socket c) + S (length before))%nat by lia.
      done.
Qed.

(** The state in which the thread reaches its read of [last_frame_]. *)
Lemma thread_turn_sleep elapsed_ms c :
  refreshRate (config c) <> 0 ->
  exists c1,
    thread_turn elapsed_ms c
    = match last_frame_ c1 with
      | None => Some c1
      | Some fr =>
          match send_computed_senders fr c1 with
          | Some (c2, Returns _) => Some c2
          | Some (c2, Throws e) => Some (push_logged e c2)
          | None => None
          end
      end
    /\ config c1 = config c /\ computed_senders c1 = computed_senders c
    /\ last_frame_ c1 = last_frame_ c /\ abort_request_ c1 = abort_request_ c
    /\ thread_ c1 = thread_ c /\ socket c1 = socket c /\ logged c1 = logged c.
Proof.
  intros Hr. unfold thread_turn. rewrite decide_False by done.
  eexists. split; [reflexivity|]. by destruct (0 <? _).
Qed.

Lemma sent_since_append_after ds c c1 :
  socket c1 = socket c -> sent_since c (append_socket ds c1) = ds.
Proof. intros Hs. unfold sent_since. simpl. rewrite Hs. apply drop_app_length. Qed.

(** ** The claims about packets and universes *)

(** C1. For every computed sender with universe number [u] and every 512-byte
    universe buffer, the datagram [send_dmx_data] hands to the socket is
    exactly 530 bytes long: the eight bytes of "Art-Net" and a zero, OpCode
    0x5000 low byte first, version 14 high byte first, sequence 0, physical
    0, [u & 0xFF], [(u >> 8) & 0xFF], length 512 high byte first, and then
    the universe buffer as it is.  The sender's fixtures play no part:
    whatever [send_computed_sender] sends is such a packet around a 512-byte
    buffer, and with no fixture at all it is the packet around 512 zeros. *)
Theorem universe_packet_layout (s : computed_sender) (data : list Z)
    (c : artnet_consumer) :
  length data = 512%nat ->
  exists packet,
    sent_since c (send_dmx_data s data 512 c).1 = [Datagram (endpoint s) packet]
    /\ length packet = 530%nat
    /\ take 18 packet
       = [65; 114; 116; 45; 78; 101; 116; 0; 0; 80; 0; 14; 0; 0;
          Z.land (c_universe s) 255; Z.land (Z.shiftr (c_universe s) 8) 255; 2; 0]
    /\ drop 18 packet = data
    /\ packet = spec_packet (c_universe s) data
    /\ (forall fr c' res,
          send_computed_sender s fr c = Some (c', res) ->
          exists data',
            length data' = 512%nat
            /\ sent_since c c'
               = [Datagram (endpoint s) (spec_packet (c_universe s) data')])
    /\ (c_fixtures s = [] ->
        forall fr,
          sent_since c (append_socket [datagram_for fr s] c)
          = [Datagram (endpoint s)
                      (spec_packet (c_universe s) (replicate 512 0))]
          /\ exists res,
               send_computed_sender s fr c
               = Some (append_socket [datagram_for fr s] c, res)).
Proof.
  intros Hlen. exists (spec_packet (c_universe s) data).
  split; [|split; [|split; [|split; [|split; [|split]]]]].
  - unfold sent_since. rewrite send_dmx_data_socket, dmx_buffer_spec by done.
    apply drop_app_length.
  - by apply spec_packet_length.
  - reflexivity.
  - reflexivity.
  - reflexivity.
  - intros fr c' res Hsend. unfold send_computed_sender in Hsend.
    destruct (fill_dmx_data s fr) as [data'|] eqn:Hfill; [|done].
    pose proof (fill_dmx_data_length _ _ _ Hfill) as Hlen'.
    exists data'. split; [done|]. injection Hsend as Hpair.
    change c' with (c', res).1. rewrite <- Hpair.
    unfold sent_since. rewrite send_dmx_data_socket, dmx_buffer_spec by done.
    apply drop_app_length.
  - intros Hnone fr.
    assert (fill_dmx_data s fr = Some (replicate 512 0)) as Hfill
      by (unfold fill_dmx_data; by rewrite Hnone).
    split.
    + rewrite sent_since_append. unfold datagram_for. rewrite Hfill. simpl.
      by rewrite dmx_buffer_spec.
    + eexists. apply send_computed_sender_fits. unfold sender_fits.
      rewrite Hnone. constructor.
Qed.

(** C7. In every send cycle and for every destination the universe buffer
    starts as 512 zero bytes, whatever earlier cycles stored, and the
    fixtures store into that; so in the packet that is sent each channel slot
    that no fixture of the destination stores to is zero.  A packet is sent
    exactly for the senders whose fixtures all lie inside the universe. *)
Theorem unwritten_slots_are_zero (s : computed_sender) (fr : frame)
    (c c' : artnet_consumer) (res : exceptional unit) :
  send_computed_sender s fr c = Some (c', res) ->
  exists data,
    fill_dmx_data s fr = write_fixtures fr (replicate 512 0) (c_fixtures s)
    /\ fill_dmx_data s fr = Some data
    /\ length data = 512%nat
    /\ sent_since c c'
       = [Datagram (endpoint s) (spec_packet (c_universe s) data)]
    /\ (forall k : nat,
          (k < 512)%nat ->
          (forall cf, cf ∈ c_fixtures s -> ~ writes_slot cf (Z.of_nat k)) ->
          data !! k = Some 0
          /\ spec_packet (c_universe s) data !! (18 + k)%nat = Some 0)
    /\ sender_fits s
    /\ (forall s0 fr0 c0,
          sender_fits s0 -> is_Some (send_computed_sender s0 fr0 c0)).
Proof.
  intros Hsend.
  assert (is_Some (fill_dmx_data s fr)) as [data Hfill].
  { unfold send_computed_sender in Hsend. by destruct (fill_dmx_data s fr). }
  pose proof (fill_dmx_data_length _ _ _ Hfill) as Hlen.
  pose proof (proj2 (fill_dmx_data_defined s fr) (mk_is_Some _ _ Hfill)) as Hfit.
  exists data. split; [reflexivity|]. split; [done|]. split; [done|].
  split; [|split; [|split; [done|]]].
  - rewrite send_computed_sender_fits in Hsend by done.
    injection Hsend as Hc' _. subst c'. rewrite sent_since_append.
    unfold datagram_for. rewrite Hfill. simpl. by rewrite dmx_buffer_spec.
  - intros k Hk Hun.
    pose proof (fill_dmx_data_unwritten _ _ _ k Hfill Hk Hun) as Hz.
    split; [done|].
    unfold spec_packet. rewrite !app_assoc.
    rewrite lookup_app_r; simpl; [|lia].
    by rewrite Nat.sub_0_r.
  - intros s0 fr0 c0 Hfit0. rewrite send_computed_sender_fits by done. by eexists.
Qed.

(** ** The claim about fixture addresses *)

(** C2 (amended).  A fixture element that the reader accepts, with configured
    start address [s] and count [n], has [s >= 1] and [n >= 1]; with [c] its
    stride (the configured channel count, or the type's minimum when that is
    absent or negative), and provided the last address [(s - 1) + (n - 1) c]
    does not exceed the largest [int], it expands to exactly [n] computed
    fixtures whose addresses are [(s - 1) + i c] for [i = 0 .. n - 1] in
    order.  The stored start address is [s - 1], so 1 becomes 0.  A sender's
    fixtures are the expansions of its fixture definitions one after the
    other, and computing the senders again yields the same list. *)
Theorem fixture_addresses (e : fixture_element) (f : fixture) (s n : Z) :
  xml_start_address e = Some s ->
  xml_fixture_count e = Some n ->
  get_fixture e = Returns f ->
  (s - 1) + (n - 1) * fixtureChannels f <= INT_MAX ->
  1 <= s /\ 1 <= n
  /\ fixtureChannels f
     = match xml_fixture_channels e with
       | Some k => if k <? 0 then FixtureType_value (type f) else k
       | None => FixtureType_value (type f)
       end
  /\ startAddress f = s - 1
  /\ compute_fixture f
     = spec_fixtures (type f) s n (fixtureChannels f) (fixtureBox f)
  /\ length (compute_fixture f) = Z.to_nat n
  /\ c_address <$> compute_fixture f
     = (fun i => (s - 1) + i * fixtureChannels f) <$> seqZ 0 n
  /\ (forall h p u before after,
        compute_fixtures (Sender h p u (before ++ f :: after))
        = compute_fixtures (Sender h p u before) ++ compute_fixture f
          ++ compute_fixtures (Sender h p u after))
  /\ (forall c0 c1, compute_senders c0 = Returns c1 ->
                    compute_senders c1 = Returns c1).
Proof.
  intros Hs Hn Hget Hmax.
  destruct (get_fixture_Returns _ _ Hget) as (H1s & H1n & _ & Hstart & Hcount & Hch & Hmin).
  unfold get in *. rewrite Hs in *. rewrite Hn in *. simpl in *.
  assert (1 <= FixtureType_value (type f)) by (destruct (type f); simpl; lia).
  assert (0 <= (n - 1) * fixtureChannels f) by (apply Z.mul_nonneg_nonneg; lia).
  assert (startAddress f = s - 1) as Hstart'.
  { rewrite Hstart. apply wrap_int_id. unfold is_int, INT_MIN, INT_MAX in *. lia. }
  assert (compute_fixture f
          = spec_fixtures (type f) s n (fixtureChannels f) (fixtureBox f)) as Hspec.
  { unfold compute_fixture, spec_fixtures.
    rewrite compute_fixtures_from_spec by lia.
    rewrite Hcount, Hstart', Z2Nat.id by lia. reflexivity. }
  split; [lia|]. split; [lia|]. split.
  { rewrite Hch. by destruct (xml_fixture_channels e). }
  split; [done|]. split; [done|]. split.
  { rewrite Hspec. unfold spec_fixtures. by rewrite length_fmap, length_seqZ. }
  split.
  { rewrite Hspec. unfold spec_fixtures. rewrite <- list_fmap_compose. done. }
  split.
  - intros h p u before after.
    rewrite compute_fixtures_app.
    change (f :: after) with ([f] ++ after). rewrite compute_fixtures_app.
    do 2 f_equal. unfold compute_fixtures. simpl. apply app_nil_r.
  - apply compute_senders_again.
Qed.

(** ** The claim about construction *)

(** C4 (amended).  [create_preconfigured_consumer] throws exactly for the
    configurations of [rejected]: a refresh rate below 1; a sender or fixture
    element that fails the element-name check; a fixture whose start address
    is absent or below 1, whose count is absent or below 1, whose type is
    absent or none of DIMMER, RGB, RGBW in any case of letters, or whose
    channel count is configured, not negative and below the type's minimum
    (a negative one counts as absent); a sender whose host does not parse.
    What is thrown is a [user_error] with one of the reader's messages, the
    address parser's error, or the element check's exception.  When it
    returns, the consumer's thread has not been started. *)
Theorem construction_fails_exactly_when_rejected (ptree : config_tree) :
  (throws (create_preconfigured_consumer ptree) <-> rejected ptree = true)
  /\ (forall ex,
        create_preconfigured_consumer ptree = Throws ex ->
        (exists msg, ex = user_error msg /\ msg ∈ reader_messages)
        \/ ex = system_error "Invalid argument"
        \/ (exists el expected, ptree_verify_element_name el expected = Throws ex))
  /\ (forall c,
        create_preconfigured_consumer ptree = Returns c ->
        thread_ c = not_started /\ abort_request_ c = false
        /\ last_frame_ c = None /\ socket c = []
        /\ 1 <= refreshRate (config c)
        /\ length (computed_senders c) = length (xml_senders ptree)).
Proof.
  split; [|split].
  - rewrite throws_returns, create_returns. apply negb_false_iff.
  - apply create_Throws.
  - intros c Hc. apply create_Returns in Hc. tauto.
Qed.

(** ** The claim about diagnostics *)

(** C9 (amended).  [state] reports three entries and no other: the number of
    computed senders under "artnet/computed-senders", the number of
    configured senders under "artnet/senders" and the refresh rate under
    "artnet/refresh-rate".  For a constructed consumer the first two are the
    same number. *)
Theorem state_reports (c : artnet_consumer) :
  state c !! "artnet/computed-senders"%string
  = Some (Z.of_nat (length (computed_senders c)))
  /\ state c !! "artnet/senders"%string
     = Some (Z.of_nat (length (senders (config c))))
  /\ state c !! "artnet/refresh-rate"%string = Some (refreshRate (config c))
  /\ (forall k v,
        state c !! k = Some v ->
        k ∈ ["artnet/computed-senders"; "artnet/senders"; "artnet/refresh-rate"]%string)
  /\ (forall ptree,
        create_preconfigured_consumer ptree = Returns c ->
        length (computed_senders c) = length (senders (config c))).
Proof.
  split; [|split; [|split; [|split]]].
  - by rewrite state_entries.
  - by rewrite state_entries.
  - by rewrite state_entries.
  - intros k v. rewrite state_entries. repeat case_decide; subst; [set_solver..|done].
  - intros ptree Hc. apply create_Returns in Hc. destruct Hc as (_&_&_&_&_&_&_&H1&H2).
    congruence.
Qed.

(** ** The claim about the frame slot *)

(** C6.  After any finite sequence of deliveries by [send], the consumer is
    as it was except for [last_frame_], which holds the frame delivered last
    (what it held before when nothing was delivered, and nothing in a new
    consumer): earlier frames are gone, not queued.  The next turn of the
    thread is the turn it would take had only that frame been delivered.
    Every [send] returns a future that is ready with [true]. *)
Theorem frame_slot_latest_wins (frames : list (option frame))
    (c : artnet_consumer) :
  let latest := default (last_frame_ c) (last frames) in
  deliver_all frames c = set_last_frame_ latest c
  /\ last_frame_ (deliver_all frames c) = latest
  /\ (forall fr, deliver_all (frames ++ [fr]) c = (send fr c).1)
  /\ (forall fr c0, (send fr c0).2 = ready true)
  /\ (forall cfg c0, new_artnet_consumer cfg = Returns c0 -> last_frame_ c0 = None)
  /\ (forall elapsed_ms,
        run ((Send <$> frames) ++ [Turn elapsed_ms]) c
        = step (Turn elapsed_ms) (set_last_frame_ latest c)).
Proof.
  simpl. split; [|split; [|split; [|split; [|split]]]].
  - apply deliver_all_last.
  - by rewrite deliver_all_last.
  - intros fr. by rewrite deliver_all_last, last_snoc.
  - done.
  - intros cfg c0. unfold new_artnet_consumer, compute_senders. simpl.
    destruct (for_each compute_sender (senders cfg)); simpl; [|done].
    by inversion 1.
  - intros elapsed_ms. rewrite run_app, run_sends, deliver_all_last. simpl.
    by destruct (match thread_ c with running => _ | _ => _ end).
Qed.

(** ** The claim about transport errors *)

(** C5 (amended).  The thread is running with a frame in the slot and every
    fixture inside its universe; in a turn, the sends to the senders [before]
    succeed and the send to [s] fails with [message].  Then the turn hands
    the socket the datagrams of [before] and of [s] and of no sender after
    [s], logs the [io_error], and leaves the thread running with the abort
    flag clear and the frame, the configuration and the computed senders as
    they were; and in the next turn, when no send fails, every sender gets
    its datagram, in order, and nothing is logged. *)
Theorem transport_error_ends_the_turn_only (c : artnet_consumer) (fr : frame)
    (before after : list computed_sender) (s : computed_sender)
    (message : string) (elapsed1 elapsed2 : Z) :
  thread_ c = running ->
  abort_request_ c = false ->
  refreshRate (config c) <> 0 ->
  last_frame_ c = Some fr ->
  computed_senders c = before ++ s :: after ->
  Forall sender_fits (computed_senders c) ->
  (forall i, (i < length before)%nat ->
             send_to_error (length (socket c) + i) = None) ->
  send_to_error (length (socket c) + length before) = Some message ->
  exists c',
    step (Turn elapsed1) c = Some c'
    /\ sent_since c c' = datagram_for fr <$> before ++ [s]
    /\ logged c' = logged c ++ [io_error message]
    /\ thread_ c' = running /\ abort_request_ c' = false
    /\ last_frame_ c' = Some fr /\ config c' = config c
    /\ computed_senders c' = computed_senders c
    /\ ((forall i, (i < length (computed_senders c))%nat ->
                   send_to_error (length (socket c') + i) = None) ->
        exists c'',
          step (Turn elapsed2) c' = Some c''
          /\ sent_since c' c'' = datagram_for fr <$> computed_senders c
          /\ logged c'' = logged c'
          /\ thread_ c'' = running).
Proof.
  intros Hrun Habort Hrate Hframe Hsenders Hfit Hok Hfail.
  destruct (thread_turn_sleep elapsed1 c Hrate)
    as (c1 & Hturn & Hcfg & Hcss & Hlf & Hab & Hth & Hsock & Hlog).
  assert (send_computed_senders fr c1
          = Some (append_socket (datagram_for fr <$> before ++ [s]) c1,
                  Throws (io_error message))) as Hsend.
  { unfold send_computed_senders. rewrite Hcss, Hsenders.
    apply send_each_fail.
    - rewrite Hsenders in Hfit. apply Forall_app in Hfit as [Hb Hs].
      apply Forall_app. split; [done|]. inversion Hs; subst. by constructor.
    - by rewrite Hsock.
    - by rewrite Hsock. }
  rewrite Hlf, Hframe, Hsend in Hturn.
  eexists. split.
  { simpl. rewrite Hrun, Habort. exact Hturn. }
  split; [simpl; by apply sent_since_append_after|].
  split; [simpl; by rewrite Hlog|].
  split; [simpl; congruence|]. split; [simpl; congruence|].
  split; [simpl; congruence|]. split; [done|]. split; [done|].
  intros Hok2.
  set (c' := push_logged (io_error message)
               (append_socket (datagram_for fr <$> before ++ [s]) c1)) in *.
  assert (refreshRate (config c') <> 0) as Hrate' by (simpl; by rewrite Hcfg).
  destruct (thread_turn_sleep elapsed2 c' Hrate')
    as (c2 & Hturn2 & Hcfg2 & Hcss2 & Hlf2 & Hab2 & Hth2 & Hsock2 & Hlog2).
  assert (send_computed_senders fr c2
          = Some (append_socket (datagram_for fr <$> computed_senders c) c2,
                  Returns tt)) as Hsend2.
  { unfold send_computed_senders. rewrite Hcss2. simpl. rewrite Hcss.
    apply send_each_ok; [done|]. by rewrite Hsock2. }
  rewrite Hlf2 in Hturn2. simpl in Hturn2. rewrite Hlf, Hframe, Hsend2 in Hturn2.
  eexists. split.
  { simpl. rewrite Hth, Hrun, Hab, Habort. exact Hturn2. }
  split; [by apply sent_since_append_after|].
  split; [simpl; by rewrite Hlog2|].
  simpl. rewrite Hth2. simpl. congruence.
Qed.

End Properties.

(** * The claims at concrete inputs *)

(** The bench consumer is the one construction gives for
    [two_senders_tree], once initialised and given a red frame. *)
Lemma bench_two_running_reached errors :
  exists c0,
    create_preconfigured_consumer (H := bench errors) two_senders_tree = Returns c0
    /\ run [Initialize; Send (H := bench errors) (Some red)] c0 = Some (bench_two_running errors).
Proof. eexists. split; reflexivity. Qed.

(** The specification's end-to-end scenario: one RGB fixture at start
    address 1, universe 0, a red frame.  One datagram of 530 bytes goes out;
    its bytes 14 to 17 are 0, 0, 2, 0 and its bytes 18 to 20 are 255, 0, 0. *)
Example end_to_end_red :
  exists c0 c1 packet,
    create_preconfigured_consumer (H := bench no_errors) one_rgb_tree = Returns c0
    /\ run [Initialize; Send (H := bench no_errors) (Some red); Turn 0] c0 = Some c1
    /\ payload <$> socket c1 = [packet]
    /\ length packet = 530%nat
    /\ take 7 (drop 14 packet) = [0; 0; 2; 0; 255; 0; 0].
Proof.
  eexists. eexists. eexists. split; [reflexivity|]. split; [by vm_compute|].
  split; [reflexivity|]. split; reflexivity.
Qed.

(** The specification's rejection scenario: a refresh rate of 0. *)
Example refresh_rate_zero_rejected :
  create_preconfigured_consumer (H := bench no_errors)
    {| xml_refresh_rate := Some 0; xml_senders := [] |}
  = Throws (user_error "Refresh rate must be at least 1").
Proof. reflexivity. Qed.

Lemma bench_rgb_sender_fits errors h u : sender_fits (bench_rgb_sender errors h u).
Proof. repeat constructor; simpl; lia. Qed.

(** C1 at universe 0x1234 and a buffer of zeros. *)
Lemma universe_packet_layout_witness :
  length (replicate 512 0) = 512%nat
  /\ exists packet,
       sent_since (H := bench no_errors) (bench_two_running no_errors)
         (send_dmx_data (H := bench no_errors) (bench_rgb_sender no_errors "10.0.0.1" 4660)
                        (replicate 512 0) 512 (bench_two_running no_errors)).1
       = [Datagram (endpoint (bench_rgb_sender no_errors "10.0.0.1" 4660)) packet]
       /\ length packet = 530%nat
       /\ take 18 packet
          = [65; 114; 116; 45; 78; 101; 116; 0; 0; 80; 0; 14; 0; 0; 52; 18; 2; 0].
Proof.
  split; [reflexivity|].
  destruct (universe_packet_layout (H := bench no_errors)
              (bench_rgb_sender no_errors "10.0.0.1" 4660) (replicate 512 0)
              (bench_two_running no_errors) eq_refl)
    as (packet & Hsent & Hlen & Hhead & _).
  exists packet. split; [exact Hsent|]. split; [exact Hlen|]. exact Hhead.
Defined.

(** C7 at one RGB fixture at address 0 and a red frame: slot 3 is zero. *)
Lemma unwritten_slots_are_zero_witness :
  exists data,
    fill_dmx_data (H := bench no_errors) (bench_rgb_sender no_errors "10.0.0.1" 0) red
    = Some data
    /\ take 4 data = [255; 0; 0; 0]
    /\ data !! 3%nat = Some 0.
Proof.
  destruct (unwritten_slots_are_zero (H := bench no_errors)
              (bench_rgb_sender no_errors "10.0.0.1" 0) red
              (bench_two_running no_errors) _ _
              (send_computed_sender_fits (H := bench no_errors) _ red
                 (bench_two_running no_errors) (bench_rgb_sender_fits _ _ _)))
    as (data & _ & Hfill & _ & _ & Hzero & _).
  exists data. split; [exact Hfill|]. split.
  - vm_compute in Hfill. injection Hfill as <-. reflexivity.
  - apply Hzero; [lia|].
    intros cf Hin. apply list_elem_of_singleton in Hin. subst cf.
    unfold writes_slot. simpl. lia.
Defined.

(** C2 (amended) at four RGBW fixtures from start address 1. *)
Lemma fixture_addresses_witness :
  get_fixture (H := bench no_errors) (bench_fixture 1 4 "rgbw" None)
  = Returns (Fixture RGBW 0 4 4 (Box 0 0 0 0 0))
  /\ c_address <$> compute_fixture (H := bench no_errors)
                     (Fixture RGBW 0 4 4 (Box 0 0 0 0 0))
     = [0; 4; 8; 12].
Proof.
  split; [reflexivity|].
  destruct (fixture_addresses (H := bench no_errors)
              (bench_fixture 1 4 "rgbw" None) (Fixture RGBW 0 4 4 (Box 0 0 0 0 0))
              1 4 eq_refl eq_refl eq_refl ltac:(by vm_compute))
    as (_ & _ & _ & _ & _ & _ & Haddr & _).
  exact Haddr.
Defined.

(** C3 at (200, 100, 50). *)
Lemma rgbw_encoding_witness :
  color_ok (Color 200 100 50)
  /\ exists r' g' b' w,
       encode RGBW (Color 200 100 50) = [r'; g'; b'; w]
       /\ w = 50 /\ r' + w = 200 /\ g' + w = 100 /\ b' + w = 50.
Proof.
  assert (color_ok (Color 200 100 50)) as Hc
    by (unfold color_ok, is_uint8; simpl; lia).
  split; [exact Hc|].
  destruct (rgbw_encoding (Color 200 100 50) Hc)
    as (r' & g' & b' & w & He & Hw & _ & _ & _ & _ & _ & _ & _ & Hr & Hg & Hb & _).
  exists r', g', b', w. repeat split; assumption.
Defined.

(** C8 (amended) at red. *)
Lemma dimmer_encoding_witness :
  color_ok red /\ exists v, encode DIMMER red = [v] /\ v = 71.
Proof.
  assert (color_ok red) as Hc by (unfold color_ok, is_uint8; simpl; lia).
  split; [exact Hc|].
  destruct (dimmer_encoding red Hc) as (v & He & _ & _ & _ & Hv & _).
  exists v. split; [exact He|]. exact Hv.
Defined.

(** C10 at full white. *)
Lemma dimmer_at_most_237_witness :
  color_ok (Color 255 255 255)
  /\ exists v, encode DIMMER (Color 255 255 255) = [v] /\ 0 <= v <= 237.
Proof.
  assert (color_ok (Color 255 255 255)) as Hc
    by (unfold color_ok, is_uint8; simpl; lia).
  split; [exact Hc|].
  destruct (dimmer_at_most_237 (Color 255 255 255) Hc) as (v & He & Hv & _).
  exists v. split; [exact He|exact Hv].
Defined.

(** C5 (amended) at two senders, the first send failing. *)
Lemma transport_error_ends_the_turn_only_witness :
  exists c',
    step (H := bench first_send_fails) (Turn 0) (bench_two_running first_send_fails) = Some c'
    /\ sent_since (H := bench first_send_fails) (bench_two_running first_send_fails) c'
       = [datagram_for (H := bench first_send_fails) red (bench_rgb_sender first_send_fails "10.0.0.1" 0)]
    /\ logged c' = [io_error "Network is unreachable"]
    /\ thread_ c' = running.
Proof.
  destruct (transport_error_ends_the_turn_only (H := bench first_send_fails)
              (bench_two_running first_send_fails) red []
              [bench_rgb_sender first_send_fails "10.0.0.2" 1]
              (bench_rgb_sender first_send_fails "10.0.0.1" 0)
              "Network is unreachable" 0 0
              eq_refl eq_refl ltac:(discriminate) eq_refl eq_refl
              ltac:(repeat constructor; simpl; lia)
              ltac:(intros i Hi; simpl in Hi; lia)
              eq_refl)
    as (c' & Hstep & Hsent & Hlog & Hth & _).
  exists c'. split; [exact Hstep|]. split; [exact Hsent|].
  split; [exact Hlog|exact Hth].
Defined.

(** C2, as stated, at three dimmers of stride [INT_MAX]: the third address
    is -2, not 4294967294. *)
Lemma fixture_addresses_overflow :
  exists f,
    get_fixture (H := bench no_errors)
      (bench_fixture 1 3 "DIMMER" (Some 2147483647)) = Returns f
    /\ fixtureChannels f = 2147483647
    /\ c_address <$> compute_fixture (H := bench no_errors) f
       = [0; 2147483647; -2]
    /\ c_address <$> spec_fixtures (H := bench no_errors) (type f) 1 3
                       (fixtureChannels f) (fixtureBox f)
       = [0; 2147483647; 4294967294].
Proof. eexists. split; [reflexivity|]. repeat split. Qed.

(** C4, as stated, at an RGB fixture with channel count -5: the count is
    below the type's minimum, and construction returns, with stride 3. *)
Lemma negative_channels_accepted :
  exists c,
    create_preconfigured_consumer (H := bench no_errors) negative_channels_tree
    = Returns c
    /\ spec_invalid (H := bench no_errors) negative_channels_tree = true
    /\ fixtureChannels <$> flat_map fixtures (senders (config c)) = [3].
Proof. eexists. split; [reflexivity|]. split; reflexivity. Qed.

(** C5, as stated, at two senders, the first send failing: the second sender
    gets no datagram in that turn. *)
Lemma later_senders_not_sent :
  exists c',
    step (H := bench first_send_fails) (Turn 0) (bench_two_running first_send_fails) = Some c'
    /\ sender_addresses (H := bench first_send_fails) c'
       = ["10.0.0.1"; "10.0.0.2"]%string
    /\ addresses_sent_to (H := bench first_send_fails)
         (bench_two_running first_send_fails) c'
       = ["10.0.0.1"]%string
    /\ logged c' = [io_error "Network is unreachable"].
Proof. eexists. split; [by vm_compute|]. repeat split. Qed.

(** C8, as stated, at (19, 251, 117): the exact sum is 155 and the byte is
    154. *)
Lemma dimmer_below_exact_floor :
  color_ok (Color 19 251 117)
  /\ encode DIMMER (Color 19 251 117) = [154]
  /\ spec_dimmer (Color 19 251 117) = 155.
Proof.
  split; [unfold color_ok, is_uint8; simpl; lia|]. split; by vm_compute.
Qed.

(** C9, as stated, at one sender with five dimmers: there are five computed
    fixtures, and no entry of [state] holds 5. *)
Lemma state_lacks_fixture_count :
  exists c,
    create_preconfigured_consumer (H := bench no_errors) five_dimmers_tree
    = Returns c
    /\ computed_fixture_count c = 5
    /\ forall k, state c !! k <> Some (computed_fixture_count c).
Proof.
  eexists. split; [by vm_compute|]. split; [reflexivity|].
  intros k. rewrite state_entries. repeat case_decide; by vm_compute.
Qed.

(** * More properties of the consumer *)

(** ** Bytes *)

Lemma to_uint8_is_uint8 z : is_uint8 (to_uint8 z).
Proof. unfold is_uint8, to_uint8. apply Z.mod_pos_bound. lia. Qed.

Lemma encode_uint8 t c : Forall is_uint8 (encode t c).
Proof.
  destruct t; simpl; unfold double_to_uint8;
    repeat constructor; apply to_uint8_is_uint8.
Qed.

Lemma nth_Forall {A} (P : A -> Prop) (l : list A) (i : nat) (d : A) :
  Forall P l -> P d -> P (nth i l d).
Proof.
  intros Hl Hd. rewrite nth_lookup. destruct (l !! i) as [a|] eqn:Hi; simpl; [|done].
  by eapply Forall_lookup_1.
Qed.

Lemma dmx_header_uint8 u len : Forall is_uint8 (dmx_header u len).
Proof.
  unfold dmx_header.
  repeat constructor; try apply to_uint8_is_uint8; unfold is_uint8; lia.
Qed.

Lemma dmx_buffer_uint8 u data len :
  Forall is_uint8 data -> Forall is_uint8 (dmx_buffer u data len).
Proof.
  intros Hdata. unfold dmx_buffer. apply Forall_fmap, Forall_forall.
  intros i _. simpl. unfold dmx_buffer_byte.
  destruct (i <? 18); [apply nth_Forall; [apply dmx_header_uint8|]|].
  { unfold is_uint8; lia. }
  destruct (i - 18 <? len); [apply nth_Forall; [done|]|]; unfold is_uint8; lia.
Qed.

Lemma dmx_buffer_length u data len : length (dmx_buffer u data len) = 530%nat.
Proof. unfold dmx_buffer. by rewrite length_fmap, length_seqZ. Qed.

Lemma dmx_buffer_lookup u data len (i : nat) :
  (i < 530)%nat ->
  dmx_buffer u data len !! i
  = Some (dmx_buffer_byte (dmx_header u len) data len (Z.of_nat i)).
Proof.
  intros Hi. unfold dmx_buffer. rewrite list_lookup_fmap, lookup_seqZ_lt by lia.
  done.
Qed.

Lemma dmx_header_length u len : length (dmx_header u len) = 18%nat.
Proof. reflexivity. Qed.

(** X1. [send_dmx_data] builds 530 bytes whatever length it is given; with a
    length [len] of at most 512 (and at least that many data bytes) they are
    the header for [len], the first [len] data bytes, and zeros up to 530. *)
Theorem short_data_is_zero_padded (u : Z) (data : list Z) (len : Z) :
  0 <= len <= 512 ->
  len <= Z.of_nat (length data) ->
  dmx_buffer u data len
  = dmx_header u len ++ take (Z.to_nat len) data
    ++ replicate (Z.to_nat (512 - len)) 0
  /\ length (dmx_buffer u data len) = 530%nat
  /\ drop 16 (dmx_header u len) = [len / 256; len mod 256].
Proof.
  intros Hlen Hdata. split; [|split].
  - apply list_eq. intros i.
    destruct (decide (i < 530)%nat) as [Hi|Hi].
    2: { rewrite !lookup_ge_None_2; [done| |].
         - rewrite !length_app, dmx_header_length, length_take, length_replicate. lia.
         - rewrite dmx_buffer_length. lia. }
    rewrite dmx_buffer_lookup by done. unfold dmx_buffer_byte.
    destruct (Z.ltb_spec (Z.of_nat i) 18) as [H18|H18].
    { rewrite lookup_app_l by (rewrite dmx_header_length; lia).
      rewrite Nat2Z.id.
      destruct (nth_lookup_or_length (dmx_header u len) i 0) as [->|Hge]; [done|].
      rewrite dmx_header_length in Hge. lia. }
    rewrite lookup_app_r by (rewrite dmx_header_length; lia).
    rewrite dmx_header_length.
    destruct (Z.ltb_spec (Z.of_nat i - 18) len) as [Hin|Hout].
    + rewrite lookup_app_l by (rewrite length_take; lia).
      rewrite lookup_take_lt by lia.
      replace (Z.to_nat (Z.of_nat i - 18)) with (i - 18)%nat by lia.
      destruct (nth_lookup_or_length data (i - 18) 0) as [->|Hge]; [done|lia].
    + rewrite lookup_app_r by (rewrite length_take; lia).
      rewrite lookup_replicate_2; [done|]. rewrite length_take. lia.
  - apply dmx_buffer_length.
  - unfold dmx_header. simpl.
    change 255 with (Z.ones 8). rewrite !Z.land_ones, Z.shiftr_div_pow2 by lia.
    change (2 ^ 8) with 256. unfold to_uint8. rewrite !Z.mod_mod by lia.
    f_equal. apply Z.mod_small. split; [apply Z.div_pos; lia|].
    apply Z.div_lt_upper_bound; lia.
Qed.

Lemma universe_bytes u :
  Z.land u 255 + 256 * Z.land (Z.shiftr u 8) 255 = u mod 65536.
Proof.
  change 255 with (Z.ones 8). rewrite !Z.land_ones, Z.shiftr_div_pow2 by lia.
  change (2 ^ 8) with 256. change 65536 with (256 * 256).
  rewrite Z.rem_mul_r by lia. reflexivity.
Qed.

(** X2. Bytes 14 and 15 of the buffer carry the universe number modulo
    65536, low byte first: a universe in [0, 65535] can be read back from
    them, and two universes that agree modulo 65536 give the same buffer. *)
Theorem universe_bytes_round_trip (u : Z) (data : list Z) (len : Z) :
  exists lUni hUni,
    dmx_buffer u data len !! 14%nat = Some lUni
    /\ dmx_buffer u data len !! 15%nat = Some hUni
    /\ is_uint8 lUni /\ is_uint8 hUni
    /\ lUni + 256 * hUni = u mod 65536
    /\ (forall u', u' mod 65536 = u mod 65536 ->
                   dmx_buffer u' data len = dmx_buffer u data len).
Proof.
  assert (forall v, to_uint8 (Z.land v 255) = Z.land v 255) as Hid.
  { intros v. unfold to_uint8. apply Z.mod_small.
    change 255 with (Z.ones 8). rewrite Z.land_ones by lia.
    apply Z.mod_pos_bound. lia. }
  exists (Z.land u 255), (Z.land (Z.shiftr u 8) 255).
  split; [|split; [|split; [|split; [|split]]]].
  - rewrite dmx_buffer_lookup by lia. unfold dmx_buffer_byte. simpl. by rewrite Hid.
  - rewrite dmx_buffer_lookup by lia. unfold dmx_buffer_byte. simpl. by rewrite Hid.
  - rewrite <- Hid. apply to_uint8_is_uint8.
  - rewrite <- Hid. apply to_uint8_is_uint8.
  - apply universe_bytes.
  - intros u' Hu'.
    assert (Z.land u' 255 = Z.land u 255
            /\ Z.land (Z.shiftr u' 8) 255 = Z.land (Z.shiftr u 8) 255) as [Hlo Hhi].
    { pose proof (universe_bytes u) as H1. pose proof (universe_bytes u') as H2.
      assert (forall v, 0 <= Z.land v 255 < 256) as Hb.
      { intros v. change 255 with (Z.ones 8). rewrite Z.land_ones by lia.
        apply Z.mod_pos_bound. lia. }
      pose proof (Hb u). pose proof (Hb u'). pose proof (Hb (Z.shiftr u 8)).
      pose proof (Hb (Z.shiftr u' 8)). lia. }
    unfold dmx_buffer, dmx_header. by rewrite Hlo, Hhi.
Qed.

(** ** Colours *)

(** X5. For every colour of three unsigned 8-bit channels, one of the three
    colour bytes of an RGBW fixture is 0, the white byte is at most each
    channel, and a grey colour lights the white channel alone. *)
Theorem rgbw_one_channel_dark (c : color) :
  color_ok c ->
  exists r' g' b' w,
    encode RGBW c = [r'; g'; b'; w]
    /\ (r' = 0 \/ g' = 0 \/ b' = 0)
    /\ w <= r c /\ w <= g c /\ w <= b c
    /\ (r c = g c -> g c = b c -> encode RGBW c = [0; 0; 0; r c]).
Proof.
  intros (Hr & Hg & Hb). unfold is_uint8 in *.
  set (w := Z.min (Z.min (r c) (g c)) (b c)).
  assert (0 <= w <= r c /\ w <= g c /\ w <= b c) as Hw by (unfold w; lia).
  assert (encode RGBW c = [r c - w; g c - w; b c - w; w]) as He.
  { unfold encode. fold w.
    rewrite (to_uint8_id w) by (unfold is_uint8; lia).
    rewrite !to_uint8_id by (unfold is_uint8; lia). reflexivity. }
  exists (r c - w), (g c - w), (b c - w), w.
  split; [done|]. split; [unfold w; lia|]. split; [lia|]. split; [lia|].
  split; [lia|]. intros Hrg Hgb. rewrite He.
  replace w with (r c) by (unfold w; lia).
  replace (g c) with (r c) by lia. replace (b c) with (r c) by lia.
  by rewrite Z.sub_diag.
Qed.

(** X6. For every colour of three unsigned 8-bit channels, the dimmer byte
    is at most the largest of the three channels, and it is 0 for black. *)
Theorem dimmer_at_most_brightest_channel (c : color) :
  color_ok c ->
  exists v,
    encode DIMMER c = [v]
    /\ 0 <= v <= Z.max (Z.max (r c) (g c)) (b c)
    /\ (r c = 0 -> g c = 0 -> b c = 0 -> v = 0).
Proof.
  intros Hc. exists (Uint63.to_Z (double_trunc (dimmer_level c))).
  split; [simpl; by rewrite dimmer_byte|].
  pose proof (dimmer_trunc_range c Hc) as Hrange.
  pose proof (dimmer_trunc c Hc) as Ht.
  destruct Hc as (Hr & Hg & Hb). unfold is_uint8 in *.
  set (m := Z.max (Z.max (r c) (g c)) (b c)).
  assert (spec_dimmer c <= m) as Hm.
  { rewrite spec_dimmer_div.
    enough ((279 * r c + 547 * g c + 106 * b c) / 1000 < m + 1) by lia.
    apply Z.div_lt_upper_bound; unfold m; lia. }
  assert (Uint63.to_Z (double_trunc (dimmer_level c)) <= m) as Hle
    by (rewrite Ht; destruct (dimmer_short c); lia).
  split; [lia|]. intros H1 H2 H3. unfold m in Hle. lia.
Qed.

Section MoreProperties.
Context `{Surroundings}.

(** ** The universe buffer, slot by slot *)

Lemma store_bytes_Forall (P : Z -> Prop) vs : forall buf at_ buf',
  Forall P buf -> Forall P vs -> store_bytes buf at_ vs = Some buf' -> Forall P buf'.
Proof.
  induction vs as [|v vs IH]; intros buf at_ buf' Hbuf Hvs Hs; simpl in Hs.
  - by inversion Hs; subst.
  - case_decide; [|done]. inversion Hvs; subst.
    eapply IH; [|done|done]. by apply Forall_insert.
Qed.

Lemma write_fixtures_Forall fr cfs : forall buf buf',
  Forall is_uint8 buf -> write_fixtures fr buf cfs = Some buf' ->
  Forall is_uint8 buf'.
Proof.
  induction cfs as [|cf cfs IH]; intros buf buf' Hbuf Hw; simpl in Hw.
  - by inversion Hw; subst.
  - unfold write_fixture in Hw.
    destruct (store_bytes _ _ _) as [buf1|] eqn:Hs; [|done].
    eapply IH; [|done]. eapply store_bytes_Forall; [done| |done].
    apply encode_uint8.
Qed.

Lemma fill_dmx_data_uint8 s fr data :
  fill_dmx_data s fr = Some data -> Forall is_uint8 data.
Proof.
  apply write_fixtures_Forall, Forall_replicate. unfold is_uint8. lia.
Qed.

(** X3. Whatever colours the sampler returns, every byte of the universe
    buffer a sender's fixtures leave behind is an unsigned 8-bit value, and
    so is every byte of the 530-byte packet around it. *)
Theorem packet_bytes_are_uint8 (s : computed_sender) (fr : frame) (data : list Z) :
  fill_dmx_data s fr = Some data ->
  Forall is_uint8 data
  /\ Forall is_uint8 (payload (datagram_for fr s))
  /\ length (payload (datagram_for fr s)) = 530%nat.
Proof.
  intros Hfill. pose proof (fill_dmx_data_uint8 _ _ _ Hfill) as Hdata.
  split; [done|]. unfold datagram_for. rewrite Hfill. cbn -[dmx_buffer].
  split; [by apply dmx_buffer_uint8|apply dmx_buffer_length].
Qed.

Lemma store_bytes_written vs : forall buf at_ buf' (j : nat),
  store_bytes buf at_ vs = Some buf' -> (j < length vs)%nat ->
  buf' !! Z.to_nat (at_ + Z.of_nat j) = vs !! j.
Proof.
  induction vs as [|v vs IH]; intros buf at_ buf' j Hs Hj; simpl in *; [lia|].
  case_decide as Hin; [|done].
  destruct j as [|j].
  - rewrite Z.add_0_r. rewrite (store_bytes_other _ _ _ _ (Z.to_nat at_) Hs) by lia.
    simpl. apply list_lookup_insert_eq. lia.
  - change ((v :: vs) !! S j) with (vs !! j).
    rewrite <- (IH _ _ _ j Hs) by lia. f_equal. lia.
Qed.

Lemma write_fixtures_app fr cfs1 cfs2 buf :
  write_fixtures fr buf (cfs1 ++ cfs2)
  = match write_fixtures fr buf cfs1 with
    | Some buf1 => write_fixtures fr buf1 cfs2
    | None => None
    end.
Proof.
  revert buf. induction cfs1 as [|cf cfs1 IH]; intros buf; [done|]. simpl.
  destruct (write_fixture fr buf cf); [apply IH|done].
Qed.

(** X4. A channel slot holds what the last fixture that stores to it put
    there: when [cf] stores to slot [k] and no fixture after [cf] in the
    sender's list does, the buffer has at [k] the byte of [cf]'s encoding for
    that offset, whatever the fixtures before [cf] stored. *)
Theorem last_fixture_to_store_wins (s : computed_sender) (fr : frame)
    (data : list Z) (before after : list computed_fixture)
    (cf : computed_fixture) (k : nat) :
  fill_dmx_data s fr = Some data ->
  c_fixtures s = before ++ cf :: after ->
  writes_slot cf (Z.of_nat k) ->
  (forall cf', cf' ∈ after -> ~ writes_slot cf' (Z.of_nat k)) ->
  data !! k
  = encode (c_type cf) (average_color fr (rectangle cf))
      !! Z.to_nat (Z.of_nat k - c_address cf)
  /\ is_Some (data !! k).
Proof.
  intros Hfill Hfix Hk Hafter. unfold fill_dmx_data in Hfill.
  rewrite Hfix, write_fixtures_app in Hfill.
  destruct (write_fixtures fr (replicate 512 0) before) as [buf1|]; [|done].
  simpl in Hfill. unfold write_fixture in Hfill.
  destruct (store_bytes _ _ _) as [buf2|] eqn:Hs; [|done].
  unfold writes_slot in Hk. rewrite <- (encode_length (c_type cf)
    (average_color fr (rectangle cf))) in Hk.
  assert (data !! k = encode (c_type cf) (average_color fr (rectangle cf))
                        !! Z.to_nat (Z.of_nat k - c_address cf)) as Heq.
  { rewrite (write_fixtures_other _ _ _ _ k Hfill Hafter).
    rewrite <- (store_bytes_written _ _ _ _ (Z.to_nat (Z.of_nat k - c_address cf)) Hs)
      by lia.
    f_equal. lia. }
  split; [done|]. rewrite Heq. apply lookup_lt_is_Some. lia.
Qed.

(** ** Fixture types *)

(** X7. The reader takes a type text for a fixture type exactly when the
    text equals the type's name up to the case of its letters; any other
    text is an unknown type. *)
Theorem parse_type_by_name (text : string) :
  (forall t, parse_type text = Returns t <-> upper text = FixtureType_name t)
  /\ ((forall t, upper text <> FixtureType_name t) ->
      parse_type text = Throws (user_error "Unknown fixture type")).
Proof.
  unfold parse_type, iequals.
  change (upper "DIMMER") with "DIMMER"%string.
  change (upper "RGBW") with "RGBW"%string.
  change (upper "RGB") with "RGB"%string.
  split.
  - intros t.
    destruct (String.eqb_spec (upper text) "DIMMER") as [->|H1].
    { destruct t; simpl; split; intros; congruence. }
    destruct (String.eqb_spec (upper text) "RGB") as [->|H2].
    { destruct t; simpl; split; intros; congruence. }
    destruct (String.eqb_spec (upper text) "RGBW") as [->|H3].
    { destruct t; simpl; split; intros; congruence. }
    destruct t; simpl; split; intros; congruence.
  - intros Hnone.
    destruct (String.eqb_spec (upper text) "DIMMER") as [He|_];
      [by destruct (Hnone DIMMER)|].
    destruct (String.eqb_spec (upper text) "RGB") as [He|_];
      [by destruct (Hnone RGB)|].
    destruct (String.eqb_spec (upper text) "RGBW") as [He|_];
      [by destruct (Hnone RGBW)|].
    done.
Qed.

(** ** Geometry *)

Lemma compute_fixtures_from_length f todo i :
  length (compute_fixtures_from f todo i) = todo.
Proof. revert i. induction todo as [|todo IH]; intros i; simpl; [done|]. by rewrite IH. Qed.

Lemma get_fixtures_counts fes : forall fs,
  for_each get_fixture fes = Returns fs ->
  Z.of_nat (length (flat_map compute_fixture fs))
  = foldr (fun fe acc => get (xml_fixture_count fe) (-1) + acc) 0 fes
  /\ Forall (fun f => 1 <= fixtureCount f) fs.
Proof.
  induction fes as [|fe fes IH]; intros fs Hf; simpl in Hf.
  - inversion Hf; subst. by split.
  - destruct (get_fixture fe) as [f|] eqn:Hfe; simpl in Hf; [|done].
    destruct (for_each get_fixture fes) as [fs'|]; simpl in Hf; [|done].
    inversion Hf; subst. destruct (IH fs' eq_refl) as [IH1 IH2].
    destruct (get_fixture_Returns _ _ Hfe) as (_ & Hn & _ & _ & Hcount & _).
    simpl. rewrite length_app, Nat2Z.inj_add, IH1.
    unfold compute_fixture. rewrite compute_fixtures_from_length.
    split; [|by constructor]. rewrite <- Hcount. lia.
Qed.

Lemma create_senders ptree c :
  create_preconfigured_consumer ptree = Returns c ->
  Forall2 (fun e s => get_sender e = Returns s)
          (xml_senders ptree) (senders (config c))
  /\ Forall2 (fun s cs => compute_sender s = Returns cs)
             (senders (config c)) (computed_senders c).
Proof.
  unfold create_preconfigured_consumer.
  destruct (_ <? 1); [done|]. unfold get_senders_ptree.
  destruct (for_each get_sender (xml_senders ptree)) as [ss|] eqn:Hs; simpl; [|done].
  unfold new_artnet_consumer, compute_senders. simpl.
  destruct (for_each compute_sender ss) as [css|] eqn:Hc; simpl; [|done].
  intros Hr. inversion Hr; subst; simpl.
  split; by apply for_each_Forall2.
Qed.

Lemma get_sender_fixtures e s :
  get_sender e = Returns s ->
  for_each get_fixture (xml_fixtures e) = Returns (fixtures s)
  /\ universe s = get (xml_universe e) (universe sender_init)
  /\ port s = get (xml_port e) (port sender_init)
  /\ host s = get (xml_host e) (host sender_init).
Proof.
  unfold get_sender. destruct (ptree_verify_element_name _ _); simpl; [|done].
  unfold get_fixtures_ptree.
  destruct (for_each get_fixture _); simpl; [|done]. by inversion 1.
Qed.

Lemma compute_sender_Returns s cs :
  compute_sender s = Returns cs ->
  c_fixtures cs = compute_fixtures s /\ c_universe cs = universe s
  /\ endpoint_port (endpoint cs) = to_uint16 (port s)
  /\ from_string (host s) = Some (endpoint_address (endpoint cs)).
Proof.
  unfold compute_sender. destruct (from_string _); [|done]. by inversion 1.
Qed.

(** X8. The consumer that construction returns holds, for each configured
    sender, as many computed fixtures as its fixture counts add up to, each
    count being at least 1; this needs no bound on the addresses. *)
Theorem computed_fixture_counts (ptree : config_tree) (c : artnet_consumer) :
  create_preconfigured_consumer ptree = Returns c ->
  (fun cs => Z.of_nat (length (c_fixtures cs))) <$> computed_senders c
  = configured_fixture_count <$> xml_senders ptree
  /\ Forall (fun s => Forall (fun f => 1 <= fixtureCount f) (fixtures s))
            (senders (config c)).
Proof.
  intros Hc. destruct (create_senders _ _ Hc) as [H1 H2].
  revert H2. generalize (computed_senders c).
  induction H1 as [|e s es ss He _ IH]; intros css H2.
  - inversion H2; subst. by split.
  - inversion H2 as [|? cs ? css' Hcs H2']; subst.
    destruct (IH _ H2') as [IH1 IH2].
    destruct (get_sender_fixtures _ _ He) as (Hfs & _).
    destruct (get_fixtures_counts _ _ Hfs) as [Hn Hge].
    destruct (compute_sender_Returns _ _ Hcs) as (Hcf & _).
    split; [|by constructor].
    rewrite !fmap_cons. f_equal; [|done].
    rewrite Hcf. unfold compute_fixtures, configured_fixture_count. done.
Qed.

(** X19. The computed senders of a constructed consumer follow the
    configured senders one to one and in order: each has the configured
    universe (the default sender's when the key is absent), the configured
    port reduced modulo 65536, and the address its host text parses to. *)
Theorem computed_senders_follow_configuration (ptree : config_tree)
    (c : artnet_consumer) :
  create_preconfigured_consumer ptree = Returns c ->
  c_universe <$> computed_senders c
  = (fun e => get (xml_universe e) (universe sender_init)) <$> xml_senders ptree
  /\ (fun cs => endpoint_port (endpoint cs)) <$> computed_senders c
     = (fun e => get (xml_port e) (port sender_init) mod 65536)
         <$> xml_senders ptree
  /\ (fun cs => Some (endpoint_address (endpoint cs))) <$> computed_senders c
     = (fun e => from_string (host_of e)) <$> xml_senders ptree.
Proof.
  intros Hc. destruct (create_senders _ _ Hc) as [H1 H2].
  revert H2. generalize (computed_senders c).
  induction H1 as [|e s es ss He _ IH]; intros css H2.
  - by inversion H2; subst.
  - inversion H2 as [|? cs ? css' Hcs H2']; subst.
    destruct (IH _ H2') as (IH1 & IH2 & IH3).
    destruct (get_sender_fixtures _ _ He) as (_ & Hu & Hp & Hh).
    destruct (compute_sender_Returns _ _ Hcs) as (_ & Hcu & Hcp & Hca).
    rewrite !fmap_cons, IH1, IH2, IH3.
    unfold host_of. rewrite Hcu, Hcp, Hu, Hp, <- Hh, Hca. done.
Qed.

Lemma for_each_first_throw {A B} (body : A -> exceptional B) xs x ys e :
  Forall (fun a => returns (body a) = true) xs ->
  body x = Throws e ->
  for_each body (xs ++ x :: ys) = Throws e.
Proof.
  intros Hxs Hx. induction Hxs as [|a xs Ha _ IH]; simpl.
  - by rewrite Hx.
  - destruct (body a); [|done]. simpl. by rewrite IH.
Qed.

(** X20. The configuration is read to its end before any host is parsed, and
    reading stops at the first sender element it turns down: with a refresh
    rate of at least 1, when the senders before one are accepted by the
    reader and that one makes the reader throw, construction throws that
    exception, whatever follows it and even when the host of an earlier
    sender does not parse. *)
Theorem first_rejected_sender_decides (ptree : config_tree)
    (before after : list sender_element) (e : sender_element) (ex : exception) :
  1 <= get (xml_refresh_rate ptree) 10 ->
  xml_senders ptree = before ++ e :: after ->
  Forall (fun a => sender_rejected a = false) before ->
  get_sender e = Throws ex ->
  create_preconfigured_consumer ptree = Throws ex.
Proof.
  intros Hrate Hsenders Hbefore He. unfold create_preconfigured_consumer.
  rewrite (proj2 (Z.ltb_ge _ _)) by lia.
  unfold get_senders_ptree. rewrite Hsenders.
  rewrite (for_each_first_throw get_sender before e after ex); [done| |done].
  eapply Forall_impl; [exact Hbefore|]. simpl. intros a Ha.
  by rewrite get_sender_returns, Ha.
Qed.

End MoreProperties.
Section ThreadProperties.
Context `{Surroundings}.

(** ** Geometry inside the universe *)

Lemma compute_fixture_lookup f (i : nat) cf :
  0 <= startAddress f -> 0 <= fixtureChannels f ->
  startAddress f + (fixtureCount f - 1) * fixtureChannels f <= INT_MAX ->
  compute_fixture f !! i = Some cf ->
  Z.of_nat i < fixtureCount f
  /\ c_type cf = type f
  /\ c_address cf = startAddress f + Z.of_nat i * fixtureChannels f.
Proof.
  intros Hs Hc Hmax Hi. unfold compute_fixture in Hi.
  destruct (Z.to_nat (fixtureCount f)) as [|n] eqn:Hn; [done|].
  rewrite <- Hn in Hi.
  rewrite compute_fixtures_from_spec in Hi by lia.
  apply list_lookup_fmap_Some in Hi as (j & -> & Hj).
  apply lookup_seqZ in Hj as [-> Hlt]. simpl. split; [lia|]. by split.
Qed.

(** X9. The instances of one fixture definition never store to the same
    slot: the reader accepts a definition only with a stride of at least the
    type's channel count, so, as long as the addresses stay within [int],
    the slots of two different instances are disjoint. *)
Theorem instances_do_not_overlap (e : fixture_element) (f : fixture)
    (i j : nat) (cfi cfj : computed_fixture) (k : Z) :
  get_fixture e = Returns f ->
  0 <= startAddress f ->
  startAddress f + (fixtureCount f - 1) * fixtureChannels f <= INT_MAX ->
  compute_fixture f !! i = Some cfi ->
  compute_fixture f !! j = Some cfj ->
  i <> j ->
  ~ (writes_slot cfi k /\ writes_slot cfj k).
Proof.
  intros Hget Hs Hmax Hi Hj Hne [Hki Hkj].
  destruct (get_fixture_Returns _ _ Hget) as (_ & _ & _ & _ & _ & _ & Hmin).
  assert (1 <= FixtureType_value (type f)) by (destruct (type f); simpl; lia).
  destruct (compute_fixture_lookup _ _ _ Hs ltac:(lia) Hmax Hi) as (_ & Hti & Hai).
  destruct (compute_fixture_lookup _ _ _ Hs ltac:(lia) Hmax Hj) as (_ & Htj & Haj).
  unfold writes_slot in *. rewrite Hti, Hai in Hki. rewrite Htj, Haj in Hkj.
  destruct (decide (i < j)%nat).
  - assert ((Z.of_nat i + 1) * fixtureChannels f <= Z.of_nat j * fixtureChannels f)
      by (apply Z.mul_le_mono_nonneg_r; lia).
    lia.
  - assert ((Z.of_nat j + 1) * fixtureChannels f <= Z.of_nat i * fixtureChannels f)
      by (apply Z.mul_le_mono_nonneg_r; lia).
    lia.
Qed.

Lemma compute_fixture_fits f :
  1 <= fixtureCount f -> FixtureType_value (type f) <= fixtureChannels f ->
  fixture_in_universe f -> Forall fixture_fits (compute_fixture f).
Proof.
  intros Hn Hmin [Hs Hin].
  assert (1 <= FixtureType_value (type f)) by (destruct (type f); simpl; lia).
  assert (0 <= (fixtureCount f - 1) * fixtureChannels f)
    by (apply Z.mul_nonneg_nonneg; lia).
  apply Forall_lookup. intros i cf Hi.
  destruct (compute_fixture_lookup f i cf Hs ltac:(lia)
              ltac:(unfold INT_MAX; lia) Hi) as (Hlt & Ht & Ha).
  assert (Z.of_nat i * fixtureChannels f <= (fixtureCount f - 1) * fixtureChannels f)
    by (apply Z.mul_le_mono_nonneg_r; lia).
  assert (0 <= Z.of_nat i * fixtureChannels f) by (apply Z.mul_nonneg_nonneg; lia).
  unfold fixture_fits. rewrite Ht, Ha. lia.
Qed.

Lemma get_fixtures_accepted fes : forall fs,
  for_each get_fixture fes = Returns fs ->
  Forall (fun f => 1 <= fixtureCount f
                   /\ FixtureType_value (type f) <= fixtureChannels f) fs.
Proof.
  intros fs Hf. apply for_each_Forall2 in Hf.
  induction Hf as [|fe f fes fs Hfe _ IH]; constructor; [|done].
  destruct (get_fixture_Returns _ _ Hfe) as (_ & Hn & _ & _ & _ & _ & Hmin). done.
Qed.

(** X10. When every fixture definition of a constructed consumer keeps its
    channels inside the 512 of the universe, every computed fixture lies
    inside the universe, and the refresh rate is at least 1. *)
Theorem configuration_inside_universe_fits (ptree : config_tree)
    (c : artnet_consumer) :
  create_preconfigured_consumer ptree = Returns c ->
  Forall (fun s => Forall fixture_in_universe (fixtures s)) (senders (config c)) ->
  Forall sender_fits (computed_senders c) /\ 1 <= refreshRate (config c).
Proof.
  intros Hc Hin. destruct (create_senders _ _ Hc) as [H1 H2].
  split; [|apply create_Returns in Hc; tauto].
  revert Hin H2. generalize (computed_senders c).
  induction H1 as [|e s es ss He _ IH]; intros css Hin H2.
  - inversion H2; subst. constructor.
  - inversion H2 as [|? cs ? css' Hcs H2']; subst.
    inversion Hin as [|? ? Hs Hin']; subst.
    constructor; [|by apply IH].
    destruct (get_sender_fixtures _ _ He) as (Hfs & _).
    apply get_fixtures_accepted in Hfs.
    destruct (compute_sender_Returns _ _ Hcs) as (Hcf & _).
    unfold sender_fits. rewrite Hcf. unfold compute_fixtures.
    rewrite Forall_flat_map. 
    apply Forall_forall. intros f Hf.
    rewrite Forall_forall in Hfs, Hs.
    destruct (Hfs f Hf). apply compute_fixture_fits; auto.
Qed.

(** ** What a run of the consumer leaves behind *)

Lemma after_activity_none c :
  after_activity c (last_frame_ c) (abort_request_ c) (thread_ c) [] [] [] = c.
Proof. destruct c. unfold after_activity. simpl. by rewrite !app_nil_r. Qed.

Lemma after_activity_twice c lf ab th ds zs es lf' ab' th' ds' zs' es' :
  after_activity (after_activity c lf ab th ds zs es) lf' ab' th' ds' zs' es'
  = after_activity c lf' ab' th' (ds ++ ds') (zs ++ zs') (es ++ es').
Proof. unfold after_activity. simpl. by rewrite !app_assoc. Qed.

Lemma send_computed_sender_inv s fr c c' res :
  send_computed_sender s fr c = Some (c', res) ->
  sender_fits s
  /\ c' = append_socket [datagram_for fr s] c
  /\ res = match send_to_error (length (socket c)) with
           | None => Returns tt
           | Some message => Throws (io_error message)
           end.
Proof.
  intros Hsend.
  assert (sender_fits s) as Hfit.
  { apply (fill_dmx_data_defined s fr). unfold send_computed_sender in Hsend.
    by destruct (fill_dmx_data s fr). }
  rewrite send_computed_sender_fits in Hsend by done.
  inversion Hsend; subst. done.
Qed.

Lemma send_each_inv fr todo : forall c c' res,
  send_each fr todo c = Some (c', res) ->
  exists sent,
    sent `prefix_of` todo /\ Forall sender_fits sent
    /\ c' = append_socket (datagram_for fr <$> sent) c
    /\ (res = Returns tt /\ sent = todo
        \/ exists message, res = Throws (io_error message)
                           /\ socket_error (io_error message)).
Proof.
  induction todo as [|s todo IH]; intros c c' res Hsend; simpl in Hsend.
  - inversion Hsend; subst. exists []. split; [done|]. split; [done|].
    split; [symmetry; apply append_socket_nil|]. by left.
  - destruct (send_computed_sender s fr c) as [[c1 res1]|] eqn:Hs; [|done].
    destruct (send_computed_sender_inv _ _ _ _ _ Hs) as (Hfit & -> & Hres).
    destruct res1 as [[]|e].
    + destruct (IH _ _ _ Hsend) as (sent & Hpre & Hfits & -> & Hcase).
      exists (s :: sent). split; [by apply prefix_cons|].
      split; [by constructor|]. split; [by rewrite append_socket_app|].
      destruct Hcase as [[-> ->]|(m & -> & Hm)]; [by left|right; eauto].
    + inversion Hsend; subst. exists [s].
      split; [apply prefix_cons, prefix_nil|]. split; [by constructor|].
      split; [done|]. right.
      destruct (send_to_error (length (socket c))) as [m|] eqn:Hm; [|done].
      inversion Hres; subst. exists m. split; [done|]. by exists m, (length (socket c)).
Qed.

Lemma datagram_for_packet fr s css :
  s ∈ css -> sender_fits s -> packet_of css (datagram_for fr s).
Proof.
  intros Hin Hfit. apply (fill_dmx_data_defined s fr) in Hfit as [data Hfill].
  exists s, data. split; [done|].
  split; [by eapply fill_dmx_data_length|].
  split; [by eapply fill_dmx_data_uint8|].
  unfold datagram_for. rewrite Hfill. simpl.
  rewrite dmx_buffer_spec; [done|]. by eapply fill_dmx_data_length.
Qed.

Lemma thread_turn_shape elapsed_ms c c' :
  thread_turn elapsed_ms c = Some c' ->
  exists ds zs es,
    c' = after_activity c (last_frame_ c) (abort_request_ c) (thread_ c) ds zs es
    /\ Forall (packet_of (computed_senders c)) ds
    /\ Forall socket_error es
    /\ zs = (if 0 <? sleep_time_of c elapsed_ms
             then [sleep_time_of c elapsed_ms] else [])
    /\ (last_frame_ c = None -> ds = [] /\ es = [])
    /\ refreshRate (config c) <> 0.
Proof.
  unfold thread_turn, sleep_time_of. case_decide as Hrate; [done|].
  set (st := wrap_long_long (Z.quot 1000 (refreshRate (config c)) - elapsed_ms)).
  set (zs := if 0 <? st then [st] else []).
  set (c1 := if 0 <? st then push_slept st c else c).
  assert (c1 = after_activity c (last_frame_ c) (abort_request_ c) (thread_ c)
                 [] zs []) as Hc1.
  { unfold c1, zs. destruct (0 <? st).
    - unfold push_slept, after_activity. by rewrite !app_nil_r.
    - symmetry. apply after_activity_none. }
  assert (last_frame_ c1 = last_frame_ c /\ computed_senders c1 = computed_senders c)
    as [Hlf Hcss] by (by rewrite Hc1).
  rewrite Hlf. destruct (last_frame_ c) as [fr|] eqn:Hfr.
  - unfold send_computed_senders. rewrite Hcss.
    destruct (send_each fr (computed_senders c) c1) as [[c2 res]|] eqn:Hsend; [|done].
    destruct (send_each_inv _ _ _ _ _ Hsend) as (sent & [rest Hpre] & Hfits & -> & Hcase).
    assert (Forall (packet_of (computed_senders c)) (datagram_for fr <$> sent)) as Hds.
    { apply Forall_fmap, Forall_forall. intros s Hs. simpl.
      apply datagram_for_packet.
      - rewrite Hpre. apply elem_of_app. by left.
      - rewrite Forall_forall in Hfits. by apply Hfits. }
    assert (forall es,
      ArtnetConsumer (config c1) (computed_senders c1) (last_frame_ c1)
        (abort_request_ c1) (thread_ c1) (socket c1 ++ (datagram_for fr <$> sent))
        (slept c1) (logged c1 ++ es)
      = after_activity c (Some fr) (abort_request_ c) (thread_ c)
          (datagram_for fr <$> sent) zs es) as Hshape.
    { intros es. rewrite Hc1. unfold after_activity. simpl.
      by rewrite !app_nil_r. }
    destruct Hcase as [[-> _]|(m & -> & Hm)]; intros Hc'; inversion Hc'; subst c'.
    + exists (datagram_for fr <$> sent), zs, [].
      split; [|by repeat split].
      rewrite <- Hshape. unfold append_socket. simpl. by rewrite app_nil_r.
    + exists (datagram_for fr <$> sent), zs, [io_error m].
      split; [|repeat split; try done; by constructor].
      rewrite <- Hshape. done.
  - intros Hc'. inversion Hc'; subst c'. exists [], zs, [].
    split; [done|]. by repeat split.
Qed.

Lemma step_shape ev c c' :
  step ev c = Some c' ->
  exists lf ab th ds zs es,
    c' = after_activity c lf ab th ds zs es
    /\ Forall (packet_of (computed_senders c)) ds
    /\ Forall socket_error es
    /\ Forall (fun z => 0 < z /\ exists elapsed_ms,
                 ev = Turn elapsed_ms /\ z = sleep_time_of c elapsed_ms) zs
    /\ (abort_request_ c = true -> ab = true /\ ds = [] /\ es = [] /\ zs = [])
    /\ (delivers_frame ev = false -> last_frame_ c = None ->
        lf = None /\ ds = [] /\ es = []).
Proof.
  destruct ev as [|fr|elapsed_ms|]; simpl; intros Hstep.
  - inversion Hstep; subst c'.
    exists (last_frame_ c), (abort_request_ c), running, [], [], [].
    split; [|by repeat split].
    unfold set_thread_, after_activity. by rewrite !app_nil_r.
  - inversion Hstep; subst c'.
    exists fr, (abort_request_ c), (thread_ c), [], [], [].
    split; [unfold set_last_frame_, after_activity; by rewrite !app_nil_r|].
    split; [done|]. split; [done|]. split; [done|]. split; [done|].
    intros Hq Hnone. by destruct fr.
  - destruct (thread_ c) eqn:Hth;
      try (inversion Hstep; subst c';
           exists (last_frame_ c), (abort_request_ c), (thread_ c), [], [], [];
           split; [symmetry; apply after_activity_none|by repeat split]).
    destruct (abort_request_ c) eqn:Hab.
    + inversion Hstep; subst c'.
      exists (last_frame_ c), true, finished, [], [], [].
      split; [|by repeat split].
      unfold set_thread_, after_activity. by rewrite Hab, !app_nil_r.
    + destruct (thread_turn_shape _ _ _ Hstep)
        as (ds & zs & es & -> & Hds & Hes & Hzs & Hnone & _).
      exists (last_frame_ c), (abort_request_ c), (thread_ c), ds, zs, es.
      split; [done|]. split; [done|]. split; [done|].
      split; [|split; [by rewrite Hab|]].
      * rewrite Hzs. destruct (Z.ltb_spec 0 (sleep_time_of c elapsed_ms));
          constructor; [|done]. split; [done|]. by exists elapsed_ms.
      * intros _ Hlf. destruct (Hnone Hlf). by repeat split.
  - inversion Hstep; subst c'.
    exists (last_frame_ c), true,
      (if joinable (thread_ c) then joined else thread_ c), [], [], [].
    split; [|by repeat split].
    unfold set_abort_request_, set_thread_, after_activity. simpl.
    rewrite !app_nil_r. by destruct (joinable (thread_ c)).
Qed.

Lemma run_shape evs : forall c c',
  run evs c = Some c' ->
  exists lf ab th ds zs es,
    c' = after_activity c lf ab th ds zs es
    /\ Forall (packet_of (computed_senders c)) ds
    /\ Forall socket_error es
    /\ Forall (fun z => 0 < z /\ exists elapsed_ms,
                 Turn elapsed_ms ∈ evs /\ z = sleep_time_of c elapsed_ms) zs
    /\ (abort_request_ c = true -> ab = true /\ ds = [] /\ es = [] /\ zs = [])
    /\ (forallb (fun ev => negb (delivers_frame ev)) evs = true ->
        last_frame_ c = None -> lf = None /\ ds = [] /\ es = []).
Proof.
  induction evs as [|ev evs IH]; intros c c' Hrun; simpl in Hrun.
  - inversion Hrun; subst c'.
    exists (last_frame_ c), (abort_request_ c), (thread_ c), [], [], [].
    split; [symmetry; apply after_activity_none|]. by repeat split.
  - destruct (step ev c) as [c1|] eqn:Hstep; [|done].
    destruct (step_shape _ _ _ Hstep)
      as (lf1 & ab1 & th1 & ds1 & zs1 & es1 & -> & Hds1 & Hes1 & Hzs1 & Hab1 & Hq1).
    destruct (IH _ _ Hrun)
      as (lf2 & ab2 & th2 & ds2 & zs2 & es2 & -> & Hds2 & Hes2 & Hzs2 & Hab2 & Hq2).
    simpl in *.
    exists lf2, ab2, th2, (ds1 ++ ds2), (zs1 ++ zs2), (es1 ++ es2).
    split; [apply after_activity_twice|].
    split; [by apply Forall_app|]. split; [by apply Forall_app|].
    split; [|split].
    + apply Forall_app. split.
      * eapply Forall_impl; [exact Hzs1|]. simpl. intros z [Hz (el & -> & Hel)].
        split; [done|]. exists el. split; [by left|done].
      * eapply Forall_impl; [exact Hzs2|]. simpl. intros z [Hz (el & Hin & Hel)].
        split; [done|]. exists el. split; [by right|done].
    + intros Hab. destruct (Hab1 Hab) as (-> & -> & -> & ->).
      destruct (Hab2 eq_refl) as (-> & -> & -> & ->). done.
    + intros Hq Hlf. apply andb_prop in Hq as [Hq Hqs].
      apply negb_true_iff in Hq.
      destruct (Hq1 Hq Hlf) as (-> & -> & ->).
      destruct (Hq2 Hqs eq_refl) as (-> & -> & ->). done.
Qed.

Lemma sent_since_after_activity c lf ab th ds zs es :
  sent_since c (after_activity c lf ab th ds zs es) = ds.
Proof. unfold sent_since. simpl. apply drop_app_length. Qed.

Lemma send_each_defined fr todo : forall c,
  Forall sender_fits todo -> is_Some (send_each fr todo c).
Proof.
  induction todo as [|s todo IH]; intros c Hfit; simpl; [by eexists|].
  inversion Hfit; subst. rewrite send_computed_sender_fits by done.
  destruct (send_to_error _); [by eexists|]. by apply IH.
Qed.

Lemma step_defined ev c :
  refreshRate (config c) <> 0 ->
  last_frame_ c = None \/ Forall sender_fits (computed_senders c) ->
  is_Some (step ev c).
Proof.
  intros Hrate Hfit. destruct ev as [|fr|elapsed_ms|]; simpl; try by eexists.
  destruct (thread_ c); try by eexists.
  destruct (abort_request_ c); [by eexists|].
  destruct (thread_turn_sleep elapsed_ms c Hrate)
    as (c1 & -> & _ & Hcss & Hlf & _).
  rewrite Hlf. destruct (last_frame_ c) as [fr|]; [|by eexists].
  destruct Hfit as [|Hfit]; [done|].
  unfold send_computed_senders. rewrite Hcss.
  destruct (send_each_defined fr (computed_senders c) c1 Hfit) as [[c2 [u|e]] ->];
    by eexists.
Qed.

(** X11. A consumer whose refresh rate is not 0 and whose computed fixtures
    all lie inside the universe never runs into undefined behaviour: every
    sequence of calls and turns of its thread leads to a state. *)
Theorem thread_never_undefined (c : artnet_consumer) (evs : list event) :
  refreshRate (config c) <> 0 ->
  Forall sender_fits (computed_senders c) ->
  is_Some (run evs c).
Proof.
  revert c. induction evs as [|ev evs IH]; intros c Hrate Hfit; simpl; [by eexists|].
  destruct (step_defined ev c Hrate (or_intror Hfit)) as [c1 Hstep].
  rewrite Hstep.
  destruct (step_shape _ _ _ Hstep) as (lf & ab & th & ds & zs & es & -> & _).
  by apply IH.
Qed.

(** X12. Nothing that happens to a consumer after its construction changes
    its configuration, its computed senders or what [state] reports; the
    records of datagrams, sleeps and logged exceptions only grow. *)
Theorem geometry_and_diagnostics_never_change (c c' : artnet_consumer)
    (evs : list event) :
  run evs c = Some c' ->
  config c' = config c
  /\ computed_senders c' = computed_senders c
  /\ state c' = state c
  /\ socket c `prefix_of` socket c'
  /\ slept c `prefix_of` slept c'
  /\ logged c `prefix_of` logged c'.
Proof.
  intros Hrun.
  destruct (run_shape _ _ _ Hrun) as (lf & ab & th & ds & zs & es & -> & _).
  unfold state. simpl. repeat split; try done; by eexists.
Qed.

(** X13. Every datagram a consumer ever hands to the socket is a packet for
    one of its senders: it goes to that sender's endpoint and is 530 bytes,
    the header of the sender's universe and 512 unsigned 8-bit values. *)
Theorem everything_sent_is_a_packet (c c' : artnet_consumer) (evs : list event) :
  run evs c = Some c' ->
  Forall (fun d =>
            packet_of (computed_senders c) d
            /\ length (payload d) = 530%nat
            /\ (exists s, s ∈ computed_senders c /\ destination d = endpoint s
                          /\ take 18 (payload d) = dmx_header (c_universe s) 512))
         (sent_since c c').
Proof.
  intros Hrun.
  destruct (run_shape _ _ _ Hrun) as (lf & ab & th & ds & zs & es & -> & Hds & _).
  rewrite sent_since_after_activity.
  eapply Forall_impl; [exact Hds|]. simpl.
  intros d (s & data & Hs & Hlen & Hu8 & ->). split; [by exists s, data|].
  cbn [payload destination]. split; [by apply spec_packet_length|].
  exists s. split; [done|]. split; [done|].
  rewrite <- (dmx_buffer_spec _ _ Hlen).
  assert (dmx_buffer (c_universe s) data 512
          = dmx_header (c_universe s) 512 ++ data) as ->.
  { unfold dmx_buffer.
    rewrite (seqZ_app 0 18 512), fmap_app by lia.
    change (0 + 18) with 18. rewrite dmx_buffer_data by done. f_equal. }
  by rewrite take_app_length'.
Qed.

(** X14. The only exceptions the thread ever logs are [io_error]s that carry
    the message of an error the socket reported. *)
Theorem only_socket_errors_are_logged (c c' : artnet_consumer) (evs : list event) :
  run evs c = Some c' ->
  Forall socket_error (drop (length (logged c)) (logged c')).
Proof.
  intros Hrun.
  destruct (run_shape _ _ _ Hrun) as (lf & ab & th & ds & zs & es & -> & _ & Hes & _).
  simpl. by rewrite drop_app_length.
Qed.

(** X15. While no frame has been delivered the thread sends nothing: from an
    empty slot, and with a refresh rate that is not 0, any sequence of events
    that delivers no frame (or only empty ones) leads to a state with the
    slot still empty, no datagram handed to the socket and nothing logged,
    whatever the fixtures are. *)
Theorem no_frame_nothing_sent (c : artnet_consumer) (evs : list event) :
  refreshRate (config c) <> 0 ->
  last_frame_ c = None ->
  forallb (fun ev => negb (delivers_frame ev)) evs = true ->
  exists c',
    run evs c = Some c'
    /\ last_frame_ c' = None /\ socket c' = socket c /\ logged c' = logged c.
Proof.
  revert c. induction evs as [|ev evs IH]; intros c Hrate Hlf Hq; simpl.
  - by exists c.
  - simpl in Hq. apply andb_prop in Hq as [Hq Hqs]. apply negb_true_iff in Hq.
    destruct (step_defined ev c Hrate (or_introl Hlf)) as [c1 Hstep].
    rewrite Hstep.
    destruct (step_shape _ _ _ Hstep)
      as (lf & ab & th & ds & zs & es & -> & _ & _ & _ & _ & Hidle).
    destruct (Hidle Hq Hlf) as (-> & -> & ->).
    destruct (IH (after_activity c None ab th [] zs []) Hrate eq_refl Hqs)
      as (c' & Hrun & Hlf' & Hsock & Hlog).
    exists c'. split; [done|]. split; [done|]. simpl in *.
    by rewrite !app_nil_r in *.
Qed.


(** X17. With a refresh rate of at least 1 and elapsed times that are not
    negative, what the thread sleeps in a turn is positive and at most the
    period [1000 / refreshRate] in whole milliseconds; the division
    truncates, so with a refresh rate above 1000 the period is 0 and the
    thread never sleeps. *)
Theorem sleeps_within_the_period (c c' : artnet_consumer) (evs : list event) :
  1 <= refreshRate (config c) ->
  Forall elapsed_ok evs ->
  run evs c = Some c' ->
  Forall (fun z => 0 < z <= 1000 / refreshRate (config c))
         (drop (length (slept c)) (slept c'))
  /\ (1000 < refreshRate (config c) -> slept c' = slept c).
Proof.
  intros Hrate Hel Hrun.
  destruct (run_shape _ _ _ Hrun)
    as (lf & ab & th & ds & zs & es & -> & _ & _ & Hzs & _).
  simpl. rewrite drop_app_length.
  assert (Forall (fun z => 0 < z <= 1000 / refreshRate (config c)) zs) as Hbound.
  { eapply Forall_impl; [exact Hzs|]. simpl.
    intros z [Hz (el & Hin & ->)].
    rewrite Forall_forall in Hel. specialize (Hel _ Hin). simpl in Hel.
    unfold sleep_time_of in *. rewrite Z.quot_div_nonneg in * by lia.
    assert (0 <= 1000 / refreshRate (config c) <= 1000).
    { split; [apply Z.div_pos; lia|]. apply Z.div_le_upper_bound; lia. }
    unfold wrap_long_long in *.
    rewrite Z.mod_small in * by lia. lia. }
  split; [done|]. intros Hfast.
  assert (1000 / refreshRate (config c) = 0) as H0 by (apply Z.div_small; lia).
  rewrite H0 in Hbound. destruct zs as [|z zs]; [by rewrite app_nil_r|].
  inversion Hbound; subst. lia.
Qed.

(** X18. In a turn that finds a frame and no transport error, every sender
    gets exactly one datagram, in the order of the configuration, and
    nothing is logged; the frame stays in the slot, so the next turn sends
    the same datagrams again. *)
Theorem one_datagram_per_sender_per_turn (c : artnet_consumer) (fr : frame)
    (elapsed1 elapsed2 : Z) :
  thread_ c = running ->
  abort_request_ c = false ->
  refreshRate (config c) <> 0 ->
  last_frame_ c = Some fr ->
  Forall sender_fits (computed_senders c) ->
  (forall i, (i < 2 * length (computed_senders c))%nat ->
             send_to_error (length (socket c) + i) = None) ->
  exists c1 c2,
    step (Turn elapsed1) c = Some c1
    /\ step (Turn elapsed2) c1 = Some c2
    /\ sent_since c c1 = datagram_for fr <$> computed_senders c
    /\ sent_since c1 c2 = datagram_for fr <$> computed_senders c
    /\ length (sent_since c c1) = length (computed_senders c)
    /\ logged c2 = logged c
    /\ last_frame_ c2 = Some fr.
Proof.
  intros Hrun Habort Hrate Hframe Hfit Hok.
  destruct (thread_turn_sleep elapsed1 c Hrate)
    as (c1 & Hturn & Hcfg & Hcss & Hlf & Hab & Hth & Hsock & Hlog).
  assert (send_computed_senders fr c1
          = Some (append_socket (datagram_for fr <$> computed_senders c) c1,
                  Returns tt)) as Hsend.
  { unfold send_computed_senders. rewrite Hcss.
    apply send_each_ok; [done|]. rewrite Hsock. intros i Hi. apply Hok. lia. }
  rewrite Hlf, Hframe, Hsend in Hturn.
  set (c' := append_socket (datagram_for fr <$> computed_senders c) c1) in *.
  assert (refreshRate (config c') <> 0) as Hrate' by (simpl; by rewrite Hcfg).
  destruct (thread_turn_sleep elapsed2 c' Hrate')
    as (c2 & Hturn2 & Hcfg2 & Hcss2 & Hlf2 & Hab2 & Hth2 & Hsock2 & Hlog2).
  assert (send_computed_senders fr c2
          = Some (append_socket (datagram_for fr <$> computed_senders c) c2,
                  Returns tt)) as Hsend2.
  { unfold send_computed_senders. rewrite Hcss2. simpl. rewrite Hcss.
    apply send_each_ok; [done|]. rewrite Hsock2. simpl.
    rewrite Hsock, length_app, length_fmap. intros i Hi.
    replace (length (socket c) + length (computed_senders c) + i)%nat
      with (length (socket c) + (length (computed_senders c) + i))%nat by lia.
    apply Hok. lia. }
  rewrite Hlf2 in Hturn2. simpl in Hturn2. rewrite Hlf, Hframe, Hsend2 in Hturn2.
  exists c', (append_socket (datagram_for fr <$> computed_senders c) c2).
  split; [simpl; by rewrite Hrun, Habort|].
  split; [simpl; by rewrite Hth, Hrun, Hab, Habort|].
  split; [by apply sent_since_append_after|].
  split; [by apply sent_since_append_after|].
  split; [unfold c'; by rewrite sent_since_append_after, length_fmap|].
  split; [simpl; by rewrite Hlog2; simpl; rewrite Hlog|].
  simpl. rewrite Hlf2. simpl. congruence.
Qed.

End ThreadProperties.

(** * Properties of video channels *)

Lemma append_bar_inj s1 : forall s2 t1 t2,
  no_bar s1 -> no_bar s2 ->
  s1 +:+ String "|" t1 = s2 +:+ String "|" t2 -> s1 = s2 /\ t1 = t2.
Proof.
  induction s1 as [|a s1 IH]; intros [|b s2] t1 t2 H1 H2 Heq; simpl in *.
  - by inversion Heq.
  - inversion Heq; subst. by destruct H2.
  - inversion Heq; subst. by destruct H1.
  - inversion Heq; subst. destruct H1 as [_ H1], H2 as [_ H2].
    destruct (IH _ _ _ H1 H2 ltac:(done)) as [-> ->]. done.
Qed.

Lemma append_last_inj s1 : forall s2 a,
  s1 +:+ String a "" = s2 +:+ String a "" -> s1 = s2.
Proof.
  induction s1 as [|b s1 IH]; intros [|b' s2] a Heq; simpl in *.
  - done.
  - inversion Heq as [[Ha Hs]]. by destruct s2.
  - inversion Heq as [[Ha Hs]]. by destruct s1.
  - inversion Heq; subst. f_equal. by eapply IH.
Qed.

Lemma pretty_N_go_no_bar x : forall s, no_bar s -> no_bar (pretty_N_go x s).
Proof.
  induction (N.lt_wf_0 x) as [x _ IH]; intros s Hs.
  assert (x = 0 \/ 0 < x)%N as [->|Hx] by lia.
  - by rewrite pretty_N_go_0.
  - rewrite pretty_N_go_step by done. apply IH; [by apply N.div_lt|].
    split; [|done]. unfold pretty_N_char. by repeat case_match.
Qed.

Lemma lexical_cast_no_bar n : no_bar (lexical_cast n).
Proof.
  assert (forall p, no_bar (pretty (N.pos p))) as Hpos.
  { intros p. unfold pretty, pretty_N. case_decide; [done|].
    by apply pretty_N_go_no_bar. }
  unfold lexical_cast, pretty, pretty_Z.
  destruct n as [|p|p]; simpl; [by split|apply Hpos|].
  split; [done|apply Hpos].
Qed.

Lemma wrap_int_succ_inj a b :
  is_int a -> is_int b -> wrap_int (a + 1) = wrap_int (b + 1) -> a = b.
Proof.
  unfold is_int, INT_MIN, INT_MAX, wrap_int. intros Ha Hb Heq.
  assert ((a + 1 + 2 ^ 31) mod 2 ^ 32 = (b + 1 + 2 ^ 31) mod 2 ^ 32) as Hm by lia.
  destruct (decide (a = 2 ^ 31 - 1)) as [->|Hna];
    destruct (decide (b = 2 ^ 31 - 1)) as [->|Hnb]; [done| | |].
  - change ((2 ^ 31 - 1 + 1 + 2 ^ 31) mod 2 ^ 32) with 0 in Hm.
    rewrite Z.mod_small in Hm by lia. lia.
  - change ((2 ^ 31 - 1 + 1 + 2 ^ 31) mod 2 ^ 32) with 0 in Hm.
    rewrite Z.mod_small in Hm by lia. lia.
  - rewrite !Z.mod_small in Hm by lia. lia.
Qed.

Section VideoChannelProperties.
Context {video_format_desc : Type} (desc_name : video_format_desc -> string).

(** X21. The label of a channel is "video_channel[", the index plus one in
    decimal, a bar, the format's name and "]".  Two channels with the same
    label have the same format name and, their indices being [int]s, the
    same index: the first bar of a label ends the number, whatever the
    name contains. *)
Theorem channel_print_injective (a b : implementation (video_format_desc := video_format_desc)) :
  channel_print desc_name a = channel_print desc_name b ->
  is_int (index_ a) -> is_int (index_ b) ->
  index_ a = index_ b
  /\ desc_name (format_desc_ a) = desc_name (format_desc_ b).
Proof.
  unfold channel_print. intros Heq Ha Hb.
  apply (inj (String.app "video_channel[")) in Heq.
  apply append_bar_inj in Heq as [Hn Hrest]; [|apply lexical_cast_no_bar..].
  apply (inj pretty) in Hn. apply wrap_int_succ_inj in Hn; [|done..].
  split; [done|]. by eapply append_last_inj.
Qed.

Lemma set_video_format_desc_fold (later : list video_format_desc) :
  forall impl : implementation,
    let impl' := foldl (fun i d => set_video_format_desc d i) impl later in
    format_desc_ impl' = format_desc_ impl /\ index_ impl' = index_ impl
    /\ calls impl'
       = calls impl
         ++ (later ≫= fun d => [mixer_set_video_format_desc d;
                                 output_set_video_format_desc d; ogl_gc]).
Proof.
  induction later as [|d later IH]; intros impl; simpl.
  - by rewrite app_nil_r.
  - destruct (IH (set_video_format_desc d impl)) as (-> & -> & ->). simpl.
    by rewrite <- app_assoc.
Qed.

(** X22. A channel keeps the format it was constructed with:
    [set_video_format_desc] hands the new format to the mixer, then to the
    output, then collects garbage, and changes neither the channel's index
    nor what [get_video_format_desc] and [print] return, however often it
    is called. *)
Theorem set_video_format_desc_is_not_kept (index : Z)
    (format_desc : video_format_desc) (later : list video_format_desc) :
  let impl := new_implementation desc_name index format_desc in
  let impl' := foldl (fun i d => set_video_format_desc d i) impl later in
  get_video_format_desc impl' = format_desc
  /\ index_ impl' = index
  /\ channel_print desc_name impl' = channel_print desc_name impl
  /\ calls impl'
     = calls impl
       ++ (later ≫= fun d => [mixer_set_video_format_desc d;
                               output_set_video_format_desc d; ogl_gc]).
Proof.
  intros impl impl'.
  destruct (set_video_format_desc_fold later impl) as (H1 & H2 & H3).
  fold impl' in H1, H2, H3.
  unfold get_video_format_desc, channel_print. rewrite H1, H2. by repeat split.
Qed.

End VideoChannelProperties.

(** * The further properties at concrete inputs *)

(** X1 at three data bytes of which two count. *)
Lemma short_data_is_zero_padded_witness :
  take 21 (dmx_buffer 7 [11; 12; 13] 2)
  = [65; 114; 116; 45; 78; 101; 116; 0; 0; 80; 0; 14; 0; 0; 7; 0; 0; 2; 11; 12; 0]
  /\ length (dmx_buffer 7 [11; 12; 13] 2) = 530%nat.
Proof.
  destruct (short_data_is_zero_padded 7 [11; 12; 13] 2
              ltac:(lia) ltac:(simpl; lia)) as (Heq & Hlen & _).
  split; [|exact Hlen]. rewrite Heq. reflexivity.
Defined.

(** X3 at a sampler that returns a colour outside the byte range. *)
Lemma packet_bytes_are_uint8_witness :
  exists data,
    fill_dmx_data (H := bench no_errors) (bench_rgb_sender no_errors "10.0.0.1" 0)
      (Color 300 (-1) 256) = Some data
    /\ take 3 data = [44; 255; 0]
    /\ Forall is_uint8 data.
Proof.
  destruct (fill_dmx_data (H := bench no_errors)
              (bench_rgb_sender no_errors "10.0.0.1" 0) (Color 300 (-1) 256))
    as [data|] eqn:Hfill; [|by vm_compute in Hfill].
  exists data. split; [reflexivity|].
  destruct (packet_bytes_are_uint8 (H := bench no_errors) _ _ _ Hfill) as (Hu8 & _).
  split; [|exact Hu8].
  vm_compute in Hfill. injection Hfill as <-. reflexivity.
Defined.

(** X4 at an RGB fixture on slots 0 to 2 and a dimmer after it on slot 1,
    under a red frame: slot 1 holds the dimmer's 71, not the RGB fixture's
    0. *)
Lemma last_fixture_to_store_wins_witness :
  exists data,
    fill_dmx_data (H := bench no_errors) bench_shared_slot_sender red = Some data
    /\ data !! 1%nat = Some 71.
Proof.
  destruct (fill_dmx_data (H := bench no_errors) bench_shared_slot_sender red)
    as [data|] eqn:Hfill; [|by vm_compute in Hfill].
  exists data. split; [reflexivity|].
  destruct (last_fixture_to_store_wins (H := bench no_errors)
              bench_shared_slot_sender red data
              [@ComputedFixture (bench no_errors) RGB 0 (bench_rect 0 1)] []
              (@ComputedFixture (bench no_errors) DIMMER 1 (bench_rect 0 1))
              1%nat Hfill eq_refl
              ltac:(unfold writes_slot; simpl; lia)
              ltac:(intros cf' Hin; by apply elem_of_nil in Hin))
    as (Heq & _).
  rewrite Heq. by vm_compute.
Defined.

(** X5 at (200, 100, 50) and at grey. *)
Lemma rgbw_one_channel_dark_witness :
  encode RGBW (Color 200 100 50) = [150; 50; 0; 50]
  /\ exists r' g' b' w,
       encode RGBW (Color 90 90 90) = [r'; g'; b'; w]
       /\ (r' = 0 \/ g' = 0 \/ b' = 0).
Proof.
  split; [reflexivity|].
  destruct (rgbw_one_channel_dark (Color 90 90 90)
              ltac:(unfold color_ok, is_uint8; simpl; lia))
    as (r' & g' & b' & w & He & Hz & _).
  exists r', g', b', w. split; [exact He|exact Hz].
Defined.

(** X6 at a colour whose brightest channel is blue. *)
Lemma dimmer_at_most_brightest_channel_witness :
  exists v, encode DIMMER (Color 10 20 250) = [v] /\ 0 <= v <= 250.
Proof.
  destruct (dimmer_at_most_brightest_channel (Color 10 20 250)
              ltac:(unfold color_ok, is_uint8; simpl; lia))
    as (v & He & Hv & _).
  exists v. split; [exact He|exact Hv].
Defined.

(** X8 at one sender with five dimmers. *)
Lemma computed_fixture_counts_witness :
  exists c,
    create_preconfigured_consumer (H := bench no_errors) five_dimmers_tree
    = Returns c
    /\ (fun cs => Z.of_nat (length (c_fixtures cs))) <$> computed_senders c = [5].
Proof.
  destruct (create_preconfigured_consumer (H := bench no_errors) five_dimmers_tree)
    as [c|] eqn:Hc; [|by vm_compute in Hc].
  exists c. split; [reflexivity|].
  destruct (computed_fixture_counts (H := bench no_errors) _ _ Hc) as (Hn & _).
  rewrite Hn. reflexivity.
Defined.

(** X9 at the first two of four RGBW instances with stride 4. *)
Lemma instances_do_not_overlap_witness :
  compute_fixture (H := bench no_errors) (Fixture RGBW 0 4 4 (Box 0 0 0 0 0)) !! 0%nat
  = Some (@ComputedFixture (bench no_errors) RGBW 0 (bench_rect 0 4))
  /\ ~ (writes_slot (@ComputedFixture (bench no_errors) RGBW 0 (bench_rect 0 4)) 3
        /\ writes_slot (@ComputedFixture (bench no_errors) RGBW 4 (bench_rect 1 4)) 3).
Proof.
  split; [reflexivity|].
  exact (instances_do_not_overlap (H := bench no_errors)
           (bench_fixture 1 4 "rgbw" None) (Fixture RGBW 0 4 4 (Box 0 0 0 0 0))
           0 1 _ _ 3 eq_refl ltac:(simpl; lia) ltac:(by vm_compute)
           eq_refl eq_refl ltac:(lia)).
Defined.

(** X11 at the bench consumer and a few events. *)
Lemma thread_never_undefined_witness :
  is_Some (run (H := bench first_send_fails)
             [Turn 0; Send None; Turn 7; Destroy; Turn 1]
             (bench_two_running first_send_fails)).
Proof.
  apply (thread_never_undefined (H := bench first_send_fails)).
  - discriminate.
  - repeat constructor; simpl; lia.
Defined.

(** X12, X13, X14 and X17 at the bench consumer: two turns, the first send
    of the first failing. *)
Lemma geometry_and_diagnostics_never_change_witness :
  exists c',
    run (H := bench first_send_fails) [Turn 0; Turn 100]
      (bench_two_running first_send_fails) = Some c'
    /\ state c' = state (bench_two_running first_send_fails)
    /\ computed_senders c' = computed_senders (bench_two_running first_send_fails).
Proof.
  destruct (run (H := bench first_send_fails) [Turn 0; Turn 100]
              (bench_two_running first_send_fails)) as [c'|] eqn:Hrun;
    [|by vm_compute in Hrun].
  exists c'. split; [reflexivity|].
  destruct (geometry_and_diagnostics_never_change (H := bench first_send_fails)
              _ _ _ Hrun) as (_ & Hcss & Hstate & _).
  split; [exact Hstate|exact Hcss].
Defined.

Lemma everything_sent_is_a_packet_witness :
  exists c',
    run (H := bench first_send_fails) [Turn 0; Turn 100]
      (bench_two_running first_send_fails) = Some c'
    /\ length (sent_since (bench_two_running first_send_fails) c') = 3%nat
    /\ Forall (fun d => length (payload d) = 530%nat)
              (sent_since (bench_two_running first_send_fails) c').
Proof.
  destruct (run (H := bench first_send_fails) [Turn 0; Turn 100]
              (bench_two_running first_send_fails)) as [c'|] eqn:Hrun;
    [|by vm_compute in Hrun].
  exists c'. split; [reflexivity|].
  pose proof (everything_sent_is_a_packet (H := bench first_send_fails)
                _ _ _ Hrun) as Hall.
  split.
  - vm_compute in Hrun. injection Hrun as <-. reflexivity.
  - eapply Forall_impl; [exact Hall|]. simpl. intros d (_ & Hlen & _). exact Hlen.
Defined.

Lemma only_socket_errors_are_logged_witness :
  exists c',
    run (H := bench first_send_fails) [Turn 0; Turn 100]
      (bench_two_running first_send_fails) = Some c'
    /\ logged c' = [io_error "Network is unreachable"]
    /\ Forall (socket_error (H := bench first_send_fails)) (logged c').
Proof.
  destruct (run (H := bench first_send_fails) [Turn 0; Turn 100]
              (bench_two_running first_send_fails)) as [c'|] eqn:Hrun;
    [|by vm_compute in Hrun].
  exists c'. split; [reflexivity|].
  pose proof (only_socket_errors_are_logged (H := bench first_send_fails)
                _ _ _ Hrun) as Hall.
  split; [|exact Hall].
  vm_compute in Hrun. injection Hrun as <-. reflexivity.
Defined.

Lemma sleeps_within_the_period_witness :
  exists c',
    run (H := bench first_send_fails) [Turn 0; Turn 100; Turn 40]
      (bench_two_running first_send_fails) = Some c'
    /\ slept c' = [100; 60]
    /\ Forall (fun z => 0 < z <= 100) (slept c').
Proof.
  destruct (run (H := bench first_send_fails) [Turn 0; Turn 100; Turn 40]
              (bench_two_running first_send_fails)) as [c'|] eqn:Hrun;
    [|by vm_compute in Hrun].
  exists c'. split; [reflexivity|].
  destruct (sleeps_within_the_period (H := bench first_send_fails)
              (bench_two_running first_send_fails) c'
              [Turn 0; Turn 100; Turn 40]
              ltac:(simpl; lia)
              ltac:(repeat (constructor; [simpl; lia|]); constructor)
              Hrun) as (Hall & _).
  split; [|exact Hall].
  vm_compute in Hrun. injection Hrun as <-. reflexivity.
Defined.

(** X15 at the bench consumer with its slot emptied. *)
Lemma no_frame_nothing_sent_witness :
  exists c',
    run (H := bench no_errors) [Turn 0; Send (H := bench no_errors) None; Turn 100]
      (set_last_frame_ None (bench_two_running no_errors)) = Some c'
    /\ socket c' = [] /\ logged c' = [].
Proof.
  destruct (no_frame_nothing_sent (H := bench no_errors)
              (set_last_frame_ None (bench_two_running no_errors))
              [Turn 0; Send (H := bench no_errors) None; Turn 100]
              ltac:(simpl; lia) eq_refl eq_refl)
    as (c' & Hrun & _ & Hsock & Hlog).
  exists c'. split; [exact Hrun|]. split; [exact Hsock|exact Hlog].
Defined.


(** X18 at the bench consumer with a socket that reports no error. *)
Lemma one_datagram_per_sender_per_turn_witness :
  exists c1 c2,
    step (H := bench no_errors) (Turn 0) (bench_two_running no_errors) = Some c1
    /\ step (H := bench no_errors) (Turn 0) c1 = Some c2
    /\ length (sent_since (bench_two_running no_errors) c1) = 2%nat
    /\ sent_since c1 c2 = sent_since (bench_two_running no_errors) c1.
Proof.
  destruct (one_datagram_per_sender_per_turn (H := bench no_errors)
              (bench_two_running no_errors) red 0 0
              eq_refl eq_refl ltac:(simpl; lia) eq_refl
              ltac:(repeat constructor; simpl; lia)
              ltac:(intros i Hi; reflexivity))
    as (c1 & c2 & H1 & H2 & Hs1 & Hs2 & Hlen & _).
  exists c1, c2. split; [exact H1|]. split; [exact H2|].
  split; [exact Hlen|]. rewrite Hs1. exact Hs2.
Defined.

(** X19 and X10 at the two senders of [two_senders_tree]. *)
Lemma computed_senders_follow_configuration_witness :
  exists c,
    create_preconfigured_consumer (H := bench no_errors) two_senders_tree
    = Returns c
    /\ c_universe <$> computed_senders c = [0; 1].
Proof.
  destruct (create_preconfigured_consumer (H := bench no_errors) two_senders_tree)
    as [c|] eqn:Hc; [|by vm_compute in Hc].
  exists c. split; [reflexivity|].
  destruct (computed_senders_follow_configuration (H := bench no_errors) _ _ Hc)
    as (Hu & _).
  rewrite Hu. reflexivity.
Defined.

Lemma configuration_inside_universe_fits_witness :
  exists c,
    create_preconfigured_consumer (H := bench no_errors) two_senders_tree
    = Returns c
    /\ Forall sender_fits (computed_senders c).
Proof.
  destruct (create_preconfigured_consumer (H := bench no_errors) two_senders_tree)
    as [c|] eqn:Hc; [|by vm_compute in Hc].
  exists c. split; [reflexivity|].
  refine (proj1 (configuration_inside_universe_fits (H := bench no_errors)
                   _ _ Hc _)).
  vm_compute in Hc. injection Hc as <-.
  repeat constructor; simpl; lia.
Defined.

(** X21 at the channels of index 0 and 1 with the format PAL. *)
Lemma channel_print_injective_witness :
  channel_print (fun n => n) (bench_channel 0 "PAL") = "video_channel[1|PAL]"%string
  /\ index_ (bench_channel 0 "PAL") = index_ (bench_channel 0 "PAL")
  /\ channel_print (fun n => n) (bench_channel 0 "PAL")
     <> channel_print (fun n => n) (bench_channel 1 "PAL").
Proof.
  split; [reflexivity|]. split.
  - exact (proj1 (channel_print_injective (fun n => n)
                    (bench_channel 0 "PAL") (bench_channel 0 "PAL") eq_refl
                    ltac:(by vm_compute) ltac:(by vm_compute))).
  - intros Heq.
    destruct (channel_print_injective (fun n => n)
                (bench_channel 0 "PAL") (bench_channel 1 "PAL") Heq
                ltac:(by vm_compute) ltac:(by vm_compute)) as [Hi _].
    discriminate Hi.
Defined.

(** X20 at a sender whose host does not parse, followed by a sender with a
    fixture count of 0: the count is what construction reports. *)
Lemma first_rejected_sender_decides_witness :
  create_preconfigured_consumer (H := bench no_errors)
    {| xml_refresh_rate := None;
       xml_senders := [bench_sender "" 0 [bench_fixture 1 1 "RGB" None];
                       bench_sender "10.0.0.2" 1 [bench_fixture 1 0 "RGB" None]] |}
  = Throws (user_error "Fixture count must be specified").
Proof.
  apply (first_rejected_sender_decides (H := bench no_errors) _
           [bench_sender "" 0 [bench_fixture 1 1 "RGB" None]] []
           (bench_sender "10.0.0.2" 1 [bench_fixture 1 0 "RGB" None])).
  - simpl. lia.
  - reflexivity.
  - repeat constructor.
  - reflexivity.
Defined.
